(** * BeeRef: image loading helper and AppImage build script

    A shallow embedding of [beeref/fileio/image.py] and
    [tools/build_appimage.py].  Both programs are sequences of calls into
    libraries and the operating system, so they are embedded in a state and
    exception monad.  The state carries the part of the world the program
    can observe, the list of external calls made so far and the records
    handed to the logger.  Library functions whose code is not part of the
    repository (Qt, piexif, urllib, os.path, subprocess, ...) are taken
    through interfaces; executable instances of the interfaces are given
    so that the programs can be run on concrete inputs. *)

From Stdlib Require Import ZArith String Ascii Lia.
From Stdlib.Strings Require Import Byte.
From Stdlib.Floats Require SpecFloat.
From stdpp Require Import base option list gmap sets strings pretty.

Open Scope Z_scope.

(** ** A small Python effect layer *)

Module Py.

(** The exception classes that occur in the two programs.  [HTTPError] is a
    subclass of [URLError]; [Exception_] stands for any other class. *)
Inductive exn : Type :=
| URLError (reason : string)
| HTTPError (code : Z) (reason : string)
| ValueError (msg : string)
| OSError (msg : string)
| FileNotFoundError (filename : string)
| KeyError (key : string)
| AssertionError (msg : string)
| Exception_ (cls msg : string).

(** [isinstance(e, URLError)] *)
Definition is_URLError (e : exn) : bool :=
  match e with
  | URLError _ | HTTPError _ _ => true
  | _ => false
  end.

(** [isinstance(e, FileNotFoundError)] *)
Definition is_FileNotFoundError (e : exn) : bool :=
  match e with
  | FileNotFoundError _ => true
  | _ => false
  end.

(** [e.reason] of a [URLError] *)
Definition reason_of (e : exn) : string :=
  match e with
  | URLError r | HTTPError _ r => r
  | _ => EmptyString
  end.

Definition result (A : Type) : Type := exn + A.

Definition is_ok {A} (r : result A) : bool :=
  match r with inr _ => true | inl _ => false end.

(** Computations over a state [S] that return a value or raise. *)
Definition M (S A : Type) : Type := S → result A * S.

Definition ret {S A} (a : A) : M S A := λ s, (inr a, s).

Definition raise {S A} (e : exn) : M S A := λ s, (inl e, s).

Definition bind {S A B} (m : M S A) (k : A → M S B) : M S B :=
  λ s, match m s with
       | (inl e, s') => (inl e, s')
       | (inr a, s') => k a s'
       end.

(** [try: m] with the outcome handed to the handler as a value *)
Definition try_ {S A} (m : M S A) : M S (result A) :=
  λ s, let '(r, s') := m s in (inr r, s').

(** [assert cond, msg]; the interpreter is started the usual way, so
    assertions are checked. *)
Definition assert_ {S} (cond : bool) (msg : string) : M S unit :=
  if cond then ret tt else raise (AssertionError msg).

Definition modify {S} (f : S → S) : M S unit := λ s, (inr tt, f s).

Definition gets {S A} (f : S → A) : M S A := λ s, (inr (f s), s).

(** [for x in xs: acc = body(acc, x)] *)
Fixpoint for_ {S A B} (xs : list B) (acc : A) (body : A → B → M S A)
  : M S A :=
  match xs with
  | [] => ret acc
  | x :: xs' => bind (body acc x) (λ acc', for_ xs' acc' body)
  end.

(** Levels of the [logging] module and a record of one logger call. *)
Inductive level : Type := DEBUG | INFO | WARNING | ERROR | CRITICAL.

Record log_record : Type := LogRecord {
  levelname : level;
  message : string;
  exc_info : option exn   (* set by [logger.exception] *)
}.

End Py.

Export Py.

Declare Scope py_scope.
Delimit Scope py_scope with py.
Notation "'let*' x ':=' m 'in' k" := (bind m (λ x, k))
  (at level 10, x name, m at level 100, k at level 200) : py_scope.
Notation "m1 ;; m2" := (bind m1 (λ _, m2))
  (at level 100, m2 at level 200, right associativity) : py_scope.
Open Scope py_scope.

(** ** [os.path]

    The functions of [os.path] the programs call.  Which implementation is
    behind them depends on the platform, so the programs are stated over
    the interface. *)

Class OsPath : Type := {
  os_sep : string;
  os_path_normpath : string → string;
  os_path_join : string → string → string;
  os_path_basename : string → string;
  os_path_dirname : string → string;
  os_path_splitext : string → string * string
}.

(** The POSIX implementation, after [posixpath.py]. *)
Module posixpath.

Definition chars : string → list ascii := list_ascii_of_string.
Definition str : list ascii → string := string_of_list_ascii.
Definition is_sep (c : ascii) : bool := Ascii.eqb c "/".
Definition is_dot (c : ascii) : bool := Ascii.eqb c ".".

(** [p.split('/')] *)
Fixpoint split_sep (l : list ascii) : list (list ascii) :=
  match l with
  | [] => [[]]
  | c :: r =>
      if is_sep c then [] :: split_sep r
      else match split_sep r with
           | [] => [[c]]
           | h :: t => (c :: h) :: t
           end
  end.

(** [p[:i]] and [p[i:]] for [i = p.rfind('/') + 1] *)
Fixpoint rsplit_sep (l : list ascii) : list ascii * list ascii :=
  match l with
  | [] => ([], [])
  | c :: r =>
      if existsb is_sep r then
        let '(h, t) := rsplit_sep r in (c :: h, t)
      else if is_sep c then ([c], r) else ([], c :: r)
  end.

Fixpoint lstrip_sep (l : list ascii) : list ascii :=
  match l with
  | c :: r => if is_sep c then lstrip_sep r else l
  | [] => []
  end.

Definition rstrip_sep (l : list ascii) : list ascii :=
  rev (lstrip_sep (rev l)).

Definition basename (p : string) : string := str (snd (rsplit_sep (chars p))).

Definition dirname (p : string) : string :=
  let head := fst (rsplit_sep (chars p)) in
  if forallb is_sep head then str head else str (rstrip_sep head).

(** Splits a reversed file name at its last dot: the extension without the
    dot (still reversed) and what comes before the dot (reversed). *)
Fixpoint rsplit_dot (rl : list ascii) : option (list ascii * list ascii) :=
  match rl with
  | [] => None
  | c :: r =>
      if is_dot c then Some ([], r)
      else match rsplit_dot r with
           | Some (ext, stem) => Some (c :: ext, stem)
           | None => None
           end
  end.

Definition splitext (p : string) : string * string :=
  let '(head, tail) := rsplit_sep (chars p) in
  match rsplit_dot (rev tail) with
  | Some (rext, rstem) =>
      if forallb is_dot rstem then (p, EmptyString)
      else (str (head ++ rev rstem)%list, str ("."%char :: rev rext))
  | None => (p, EmptyString)
  end.

Definition join (a b : string) : string :=
  match chars b with
  | c :: _ => if is_sep c then b
              else match rev (chars a) with
                   | [] => b
                   | l :: _ => if is_sep l then a +:+ b else a +:+ "/" +:+ b
                   end
  | [] => match rev (chars a) with
          | [] => b
          | l :: _ => if is_sep l then a +:+ b else a +:+ "/" +:+ b
          end
  end.

Definition dotdot : list ascii := ["."%char; "."%char].

(** The loop over the components; [new_comps] is kept reversed. *)
Fixpoint norm_comps (initial_slashes : nat) (comps : list (list ascii))
    (new_comps : list (list ascii)) : list (list ascii) :=
  match comps with
  | [] => rev new_comps
  | comp :: rest =>
      if bool_decide (comp = []) || bool_decide (comp = ["."%char]) then
        norm_comps initial_slashes rest new_comps
      else if negb (bool_decide (comp = dotdot))
              || (Nat.eqb initial_slashes 0 && bool_decide (new_comps = []))
              || match new_comps with
                 | top :: _ => bool_decide (top = dotdot)
                 | [] => false
                 end
      then norm_comps initial_slashes rest (comp :: new_comps)
      else norm_comps initial_slashes rest (tail new_comps)
  end.

Fixpoint join_sep (comps : list (list ascii)) : list ascii :=
  match comps with
  | [] => []
  | [c] => c
  | c :: rest => (c ++ "/"%char :: join_sep rest)%list
  end.

Definition normpath (path : string) : string :=
  match chars path with
  | [] => "."
  | l =>
      let initial_slashes :=
        match l with
        | c1 :: c2 :: c3 :: _ =>
            if is_sep c1 then
              if is_sep c2 && negb (is_sep c3) then 2%nat else 1%nat
            else 0%nat
        | [c1; c2] =>
            if is_sep c1 then if is_sep c2 then 2%nat else 1%nat else 0%nat
        | [c1] => if is_sep c1 then 1%nat else 0%nat
        | [] => 0%nat
        end in
      let comps := norm_comps initial_slashes (split_sep l) [] in
      match (replicate initial_slashes "/"%char ++ join_sep comps)%list with
      | [] => "."
      | r => str r
      end
  end.

Definition instance : OsPath := {|
  os_sep := "/";
  os_path_normpath := normpath;
  os_path_join := join;
  os_path_basename := basename;
  os_path_dirname := dirname;
  os_path_splitext := splitext
|}.

End posixpath.

(** ** Qt and piexif

    [QImage], [QTransform] and [QUrl] are classes of PyQt5; the image
    helper only constructs them and calls their methods.  A [QImage] is
    built from a path and the files present at that moment.  The one fact
    about Qt the helper relies on is that a [QImage] built without a path
    is null. *)

Class QtGui : Type := {
  QImage : Type;
  QTransform : Type;
  (** [QtGui.QImage(path)] *)
  QImage_new : option string → gmap string (list byte) → QImage;
  isNull : QImage → bool;
  (** [img.mirrored(horizontal=h, vertical=v)] *)
  mirrored : QImage → bool → bool → QImage;
  (** [QtGui.QTransform()] *)
  QTransform_new : QTransform;
  (** [transform.rotate(degrees)], which updates [transform] *)
  rotate : QTransform → Z → QTransform;
  (** [img.transformed(transform)] *)
  transformed : QImage → QTransform → QImage;
  QImage_new_None_isNull : ∀ fs, isNull (QImage_new None fs) = true
}.

(** What the helper asks of a [QUrl]. *)
Record QUrl : Type := mkQUrl {
  isLocalFile : bool;
  toLocalFile : string;
  url : string
}.

(** A value stored under an EXIF tag, by the type the file declares for
    it: piexif gives an [int] for a single BYTE, SHORT or LONG (signed or
    not), a [float] for a single FLOAT or DOUBLE, [bytes] for ASCII and
    UNDEFINED, and a tuple for a rational and for several values.  A
    float is the value it stands for: zero, an infinity, NaN, or
    [(-1)^s * m * 2^e]. *)
#[local] Unset Elimination Schemes.
Inductive exif_value : Type :=
| ExifInt (n : Z)
| ExifFloat (x : SpecFloat.spec_float)
| ExifTuple (vs : list exif_value)
| ExifBytes (b : list byte).
#[local] Set Elimination Schemes.

(** The dictionary [piexif.load] returns; of its entries the helper reads
    ['0th'], itself a dictionary from tag numbers to values. *)
Record exif_dict : Type := mkExif {
  ifd_0th : gmap Z exif_value
}.

(** [piexif.ImageIFD.Orientation] *)
Definition ImageIFD_Orientation : Z := 274.

(** [x == k] for a float [x] and an integer [k]: Python compares the two
    values exactly. *)
Definition float_eq_int (x : SpecFloat.spec_float) (k : Z) : bool :=
  match x with
  | SpecFloat.S754_zero _ => k =? 0
  | SpecFloat.S754_finite s m e =>
      let v := if s then Z.neg m else Z.pos m in
      if 0 <=? e then v * 2 ^ e =? k else v =? k * 2 ^ (- e)
  | SpecFloat.S754_infinity _ | SpecFloat.S754_nan => false
  end.

(** [value == k] for an integer literal [k]: numbers are compared by
    value, a tuple or [bytes] is never equal to an integer. *)
Definition py_eq_int (v : exif_value) (k : Z) : bool :=
  match v with
  | ExifInt n => n =? k
  | ExifFloat x => float_eq_int x k
  | ExifTuple _ | ExifBytes _ => false
  end.

(** The remaining libraries of the image helper: the EXIF parser, the
    network and the names [tempfile] picks. *)
Class ImageLibs : Type := {
  (** [piexif.load(path)] *)
  piexif_load : option string → gmap string (list byte) → result exif_dict;
  (** [request.urlopen(url).read()] *)
  urlopen_read : string → result (list byte);
  (** the directory the [n]-th [tempfile.TemporaryDirectory()] creates *)
  tempfile_name : nat → string
}.

(** ** [beeref/fileio/image.py] *)

Module image.

Inductive call : Type :=
| Call_QImage (path : option string)
| Call_piexif_load (path : option string)
| Call_urlopen (url : string)
| Call_TemporaryDirectory (tmp : string)
| Call_write (fname : string) (data : list byte)
| Call_cleanup (tmp : string).

Record state : Type := mkState {
  files : gmap string (list byte);
  tmp_count : nat;
  calls : list call;
  logs : list log_record
}.

Definition emit (c : call) : M state unit :=
  modify (λ s, mkState (files s) (tmp_count s) (calls s ++ [c]) (logs s)).

Definition log (lvl : level) (msg : string) (exc : option exn)
  : M state unit :=
  modify (λ s, mkState (files s) (tmp_count s) (calls s)
                 (logs s ++ [LogRecord lvl msg exc])).

(** [logger.debug(msg)] *)
Definition logger_debug (msg : string) : M state unit := log DEBUG msg None.

(** [logger.exception(msg)] inside a handler for [e] *)
Definition logger_exception (msg : string) (e : exn) : M state unit :=
  log ERROR msg (Some e).

(** [f'{path}'] for a path that is a string or [None] *)
Definition format_path (path : option string) : string :=
  match path with
  | Some p => p
  | None => "None"
  end.

(** The argument of [load_image]: a [str] or a [QUrl]. *)
Inductive path_arg : Type :=
| Str (s : string)
| Url (u : QUrl).

Section program.
Context `{QtGui} `{ImageLibs} `{OsPath}.

Definition new_QImage (path : option string) : M state QImage :=
  emit (Call_QImage path) ;;
  gets (λ s, QImage_new path (files s)).

Definition load_exif (path : option string) : M state exif_dict :=
  emit (Call_piexif_load path) ;;
  let* r := gets (λ s, piexif_load path (files s)) in
  match r with
  | inl e => raise e
  | inr d => ret d
  end.

(** Lines 29 to 73. *)
Definition exif_rotated_image (path : option string) : M state QImage :=
  let* img := new_QImage path in
  if isNull img then ret img
  else
    let* r := try_ (load_exif path) in
    match r with
    | inl e =>
        logger_exception
          ("Exif parser failed on image: " +:+ format_path path) e ;;
        ret img
    | inr exif_dict =>
        match ifd_0th exif_dict !! ImageIFD_Orientation with
        | None => ret img
        | Some orientation =>
            let transform := QTransform_new in
            if py_eq_int orientation 2 then
              ret (mirrored img true false)
            else if py_eq_int orientation 3 then
              ret (transformed img (rotate transform 180))
            else if py_eq_int orientation 4 then
              ret (mirrored img false true)
            else if py_eq_int orientation 5 then
              ret (mirrored (transformed img (rotate transform 90))
                     true false)
            else if py_eq_int orientation 6 then
              ret (transformed img (rotate transform 90))
            else if py_eq_int orientation 7 then
              ret (mirrored (transformed img (rotate transform 270))
                     true false)
            else if py_eq_int orientation 8 then
              ret (transformed img (rotate transform 270))
            else ret img
        end
    end.

(** [request.urlopen(url).read()] *)
Definition download (u : string) : M state (list byte) :=
  emit (Call_urlopen u) ;;
  match urlopen_read u with
  | inl e => raise e
  | inr data => ret data
  end.

(** Whether [p] is the directory [dir] or lies below it. *)
Definition below (dir p : string) : bool :=
  String.eqb dir p || String.prefix (dir +:+ os_sep) p.

(** [with tempfile.TemporaryDirectory() as tmp: body]: a fresh
    directory, removed with its content when the block is left,
    also when it is left by an exception.  Creating and removing the
    directory are taken to succeed: an [OSError] of the temporary
    directory (no space, no permission) is outside this model. *)
Definition with_TemporaryDirectory {A} (body : string → M state A)
  : M state A :=
  let* n := gets tmp_count in
  let tmp := tempfile_name n in
  modify (λ s, mkState (files s) (S n) (calls s) (logs s)) ;;
  emit (Call_TemporaryDirectory tmp) ;;
  let* r := try_ (body tmp) in
  emit (Call_cleanup tmp) ;;
  modify (λ s, mkState (filter (λ kv, below tmp kv.1 = false) (files s))
                 (tmp_count s) (calls s) (logs s)) ;;
  match r with
  | inl e => raise e
  | inr a => ret a
  end.

(** [with open(fname, 'wb') as f: f.write(data)].  The write is taken to
    succeed: an [OSError] of [open] or [write] is outside this model. *)
Definition write_file (fname : string) (data : list byte) : M state unit :=
  emit (Call_write fname data) ;;
  modify (λ s, mkState (<[fname := data]> (files s)) (tmp_count s)
                 (calls s) (logs s)).

(** Lines 76 to 96. *)
Definition load_image (path : path_arg) : M state (QImage * string) :=
  match path with
  | Str p =>
      let path := os_path_normpath p in
      let* img := exif_rotated_image (Some path) in
      ret (img, path)
  | Url u =>
      if isLocalFile u then
        let path := os_path_normpath (toLocalFile u) in
        let* img := exif_rotated_image (Some path) in
        ret (img, path)
      else
        let* img := exif_rotated_image None in
        let* r := try_ (download (url u)) in
        let* img :=
          match r with
          | inl e =>
              if is_URLError e then
                logger_debug
                  ("Downloading image failed: " +:+ reason_of e) ;;
                ret img
              else raise e
          | inr imgdata =>
              with_TemporaryDirectory (λ tmp,
                let fname := os_path_join tmp "img" in
                write_file fname imgdata ;;
                logger_debug ("Temporarily saved in: " +:+ fname) ;;
                exif_rotated_image (Some fname))
          end in
        ret (img, url u)
  end.

End program.

End image.

(** ** The operating system seen by the build script

    The build script runs external programs and works on the real file
    system, whose behaviour is not known: every operation is a function on
    an abstract world [W] that returns its outcome and the next world.

    The JSON document is the one [find_linux_libs] generates: an object
    whose members are arrays of strings. *)

Abbreviation json_doc := (gmap string (list string)).

Class BuildOS (W : Type) : Type := {
  (** [os.path.exists(path)] *)
  os_path_exists : string → W → bool;
  (** [urllib.request.urlretrieve(url, filename=filename)] *)
  urlretrieve : string → string → W → result unit * W;
  (** [os.chmod(path, mode)] *)
  os_chmod : string → Z → W → result unit * W;
  (** [shutil.rmtree(path)] *)
  shutil_rmtree : string → W → result unit * W;
  (** [subprocess.run(args, capture_output=c).returncode] *)
  subprocess_run : list string → bool → W → result Z * W;
  (** [with open(path, 'r') as f: json.loads(f.read())] *)
  read_json : string → W → result json_doc * W;
  (** [os.walk(top)], all the triples [(root, subdirs, files)] *)
  os_walk : string → W → list (string * list string * list string);
  (** [os.makedirs(path, exist_ok=True)] *)
  os_makedirs : string → W → result unit * W;
  (** [shutil.copyfile(src, dst)] *)
  shutil_copyfile : string → string → W → result unit * W;
  (** [os.remove(path)] *)
  os_remove : string → W → result unit * W;
  (** [with open(path, 'w') as f: f.write(content)] *)
  write_text : string → string → W → result unit * W;
  (** [f'{args}'] for a tuple of strings *)
  format_tuple : list string → string;
  (** [list(s)] for a set of strings: the elements in some order *)
  list_of_set : gset string → list string;
  list_of_set_perm : ∀ s, list_of_set s ≡ₚ elements s
}.

(** ** [tools/build_appimage.py] *)

Module build_appimage.

(** The command line, as parsed by [argparse]. *)
Record args : Type := mkArgs {
  version : string;
  jsonfile : string;
  redownload : bool;
  skip_apt : bool;
  loglevel : string
}.

(** The calls into the operating system, each with its outcome. *)
Inductive call : Type :=
| Call_exists (path : string) (r : bool)
| Call_urlretrieve (url filename : string) (r : result unit)
| Call_chmod (path : string) (mode : Z) (r : result unit)
| Call_rmtree (path : string) (r : result unit)
| Call_run (argv : list string) (capture_output : bool) (r : result Z)
| Call_read_json (path : string) (r : result json_doc)
| Call_walk (top : string) (r : list (string * list string * list string))
| Call_makedirs (path : string) (r : result unit)
| Call_copyfile (src dst : string) (r : result unit)
| Call_remove (path : string) (r : result unit)
| Call_write (path content : string) (r : result unit).

Record state (W : Type) : Type := mkState {
  world : W;
  calls : list call;
  logs : list log_record
}.
Arguments mkState {W} _ _ _.
Arguments world {W} _.
Arguments calls {W} _.
Arguments logs {W} _.

(** [s.removeprefix(prefix)] *)
Definition removeprefix (s pre : string) : string :=
  if String.prefix pre s
  then String.substring (String.length pre)
         (String.length s - String.length pre) s
  else s.

(** [sep.join(l)] *)
Fixpoint str_join (sep : string) (l : list string) : string :=
  match l with
  | [] => EmptyString
  | [x] => x
  | x :: rest => x +:+ sep +:+ str_join sep rest
  end.

Definition APPIMAGE : string :=
  "python3.11.8-cp311-cp311-manylinux_2_28_x86_64.AppImage".
Definition PYVER : string := "3.11".

Definition dq : string := String "034"%char EmptyString.
Definition nl : string := String "010"%char EmptyString.

(** The text of lines 138 to 155. *)
Definition AppRun_head : string :=
  "#! /bin/bash" +:+ nl +:+
  nl +:+
  "# If running from an extracted image, then export ARGV0 and APPDIR" +:+ nl +:+
  "if [ -z " +:+ dq +:+ "${APPIMAGE}" +:+ dq +:+ " ]; then" +:+ nl +:+
  "    export ARGV0=" +:+ dq +:+ "$0" +:+ dq +:+ nl +:+
  nl +:+
  "    self=$(readlink -f -- " +:+ dq +:+ "$0" +:+ dq +:+ ") # Protect spaces (issue 55)" +:+ nl +:+
  "    here=" +:+ dq +:+ "${self%/*}" +:+ dq +:+ nl +:+
  "    tmp=" +:+ dq +:+ "${here%/*}" +:+ dq +:+ nl +:+
  "    export APPDIR=" +:+ dq +:+ "${tmp%/*}" +:+ dq +:+ nl +:+
  "fi" +:+ nl +:+
  nl +:+
  "# Resolve the calling command (preserving symbolic links)." +:+ nl +:+
  "export APPIMAGE_COMMAND=$(command -v -- " +:+ dq +:+ "$ARGV0" +:+ dq +:+ ")" +:+ nl +:+
  nl +:+
  "# Export SSL certificate" +:+ nl +:+
  "export SSL_CERT_FILE=" +:+ dq +:+ "${APPDIR}/opt/_internal/certs.pem" +:+ dq +:+ nl.

Section program.
Context {W : Type} `{BuildOS W} `{OsPath}.

Definition log (lvl : level) (msg : string) : M (state W) unit :=
  modify (λ s, mkState (world s) (calls s)
                 (logs s ++ [LogRecord lvl msg None])).
Definition logger_info : string → M (state W) unit := log INFO.
Definition logger_debug : string → M (state W) unit := log DEBUG.

(** Runs an operation on the world and records the call. *)
Definition os_call {A} (op : W → result A * W) (ev : result A → call)
  : M (state W) A :=
  λ s, let '(r, w) := op (world s) in
       (r, mkState w (calls s ++ [ev r]) (logs s)).

(** Asks the world a question and records the call. *)
Definition os_query {A} (q : W → A) (ev : A → call) : M (state W) A :=
  λ s, let a := q (world s) in
       (inr a, mkState (world s) (calls s ++ [ev a]) (logs s)).

(** Lines 58 to 61. *)
Definition run_command (argv : list string) (capture_output : bool)
  : M (state W) unit :=
  logger_info ("Running command: " +:+ format_tuple argv) ;;
  let* returncode :=
    os_call (subprocess_run argv capture_output)
            (Call_run argv capture_output) in
  assert_ (returncode =? 0)
          ("Failed with exit code " +:+ pretty returncode).

(** Lines 64 to 71. *)
Definition download_file (a : args) (url filename : string)
  : M (state W) unit :=
  let* found :=
    if negb (redownload a)
    then os_query (os_path_exists filename) (Call_exists filename)
    else ret false in
  (if found then
     logger_info ("Found file: " +:+ filename)
   else
     logger_info ("Downloading: " +:+ url) ;;
     logger_info ("Saving as: " +:+ filename) ;;
     os_call (urlretrieve url filename) (Call_urlretrieve url filename)) ;;
  os_call (os_chmod filename 493) (Call_chmod filename 493).

Definition python_url : string :=
  "https://github.com/niess/python-appimage/releases/download/" +:+
  "python" +:+ PYVER +:+ "/" +:+ APPIMAGE.

Definition appimagetool_url : string :=
  "https://github.com/AppImage/AppImageKit/releases/download/" +:+
  "continuous/appimagetool-x86_64.AppImage".

Definition extract_argv : list string :=
  ["./python.appimage"; "--appimage-extract"].

Definition pip_argv : list string :=
  ["squashfs-root/usr/bin/pip"; "install"; ".";
   "--target=squashfs-root/opt/python" +:+ PYVER +:+ "/lib/python"
     +:+ PYVER +:+ "/"].

Definition apt_argv (packages : list string) : list string :=
  ["sudo"; "apt"; "install"] ++ packages.

Definition appimagetool_argv (a : args) : list string :=
  ["./appimagetool.appimage"; "squashfs-root";
   "BeeRef-" +:+ removeprefix (version a) "v" +:+ ".appimage";
   "--no-appstream"].

(** [data[key]] *)
Definition getitem (data : json_doc) (key : string)
  : M (state W) (list string) :=
  match data !! key with
  | Some v => ret v
  | None => raise (KeyError key)
  end.

(** Lines 109 to 123: the body of the loop over [libs]; [paths] is the
    set the loop adds to. *)
Definition copy_lib (existing_files excludes : list string)
    (paths : gset string) (lib : string) : M (state W) (gset string) :=
  if bool_decide (os_path_basename lib ∈ existing_files) then
    logger_debug ("Skipping " +:+ lib +:+ " (already in appimage)") ;;
    ret paths
  else if bool_decide (os_path_basename lib ∈ excludes) then
    logger_debug ("Skipping " +:+ lib +:+ " (excluded)") ;;
    ret paths
  else
    let paths := paths ∪ {[os_path_dirname lib]} in
    let* found := os_query (os_path_exists lib) (Call_exists lib) in
    let filename := if found then lib else fst (os_path_splitext lib) in
    let dest := "squashfs-root" +:+ filename in
    os_call (os_makedirs (os_path_dirname dest))
            (Call_makedirs (os_path_dirname dest)) ;;
    logger_debug ("Copying " +:+ filename +:+ " to " +:+ dest) ;;
    os_call (shutil_copyfile filename ("squashfs-root" +:+ filename))
            (Call_copyfile filename ("squashfs-root" +:+ filename)) ;;
    ret paths.

(** Lines 126 to 161. *)
Definition write_run_script (paths : gset string) : M (state W) unit :=
  logger_info "Writing run script..." ;;
  os_call (os_remove "squashfs-root/AppRun")
          (Call_remove "squashfs-root/AppRun") ;;
  let paths := "/usr/lib" :: list_of_set paths in
  let ld_paths :=
    ((λ p, "${APPDIR}" +:+ p) <$> paths) ++ ["${LD_LIBRARY_PATH}"] in
  let ld_paths := str_join ":" ld_paths in
  logger_debug ("LD_LIBRARY_PATH: " +:+ ld_paths) ;;
  let content := AppRun_head in
  let content :=
    content +:+ "export LD_LIBRARY_PATH=" +:+ dq +:+ ld_paths +:+ dq
            +:+ nl in
  let content :=
    content +:+ dq +:+ "$APPDIR/opt/python" +:+ PYVER +:+ "/bin/python"
            +:+ PYVER +:+ dq +:+ " -I -m beeref " +:+ dq +:+ "$@" +:+ dq
            +:+ nl in
  os_call (write_text "squashfs-root/AppRun" content)
          (Call_write "squashfs-root/AppRun" content) ;;
  os_call (os_chmod "squashfs-root/AppRun" 493)
          (Call_chmod "squashfs-root/AppRun" 493).

(** Lines 94 to 170: the script from the point where the document has
    been parsed into [data]. *)
Definition after_json (a : args) (data : json_doc) : M (state W) unit :=
  let* libs := getitem data "libs" in
  let* packages := getitem data "packages" in
  let* excludes := getitem data "excludes" in
  let paths : gset string := ∅ in
  (if negb (skip_apt a) then run_command (apt_argv packages) false
   else ret tt) ;;
  logger_info "Copying .so files to appimage..." ;;
  let* walked := os_query (os_walk "squashfs-root")
                          (Call_walk "squashfs-root") in
  let existing_files := concat ((λ t, snd t) <$> walked) in
  let* paths := for_ libs paths (copy_lib existing_files excludes) in
  write_run_script paths ;;
  download_file a appimagetool_url "appimagetool.appimage" ;;
  run_command (appimagetool_argv a) false.

(** Lines 74 to 91: the script up to the point where the document is
    opened. *)
Definition before_json (a : args) : M (state W) unit :=
  download_file a python_url "python.appimage" ;;
  let* r := try_ (os_call (shutil_rmtree "squashfs-root")
                          (Call_rmtree "squashfs-root")) in
  match r with
  | inl e => if is_FileNotFoundError e then ret tt else raise e
  | inr _ => ret tt
  end ;;
  run_command extract_argv true ;;
  run_command pip_argv false ;;
  logger_info ("Reading from: " +:+ jsonfile a).

(** The module top level, lines 74 to 170. *)
Definition main (a : args) : M (state W) unit :=
  before_json a ;;
  let* data := os_call (read_json (jsonfile a))
                       (Call_read_json (jsonfile a)) in
  after_json a data.

End program.

(** *** Reading the list of calls *)

(** The calls [m] adds to the list when it is run from [s]. *)
Definition emitted {W A} (m : M (state W) A) (s : state W) : list call :=
  drop (length (calls s)) (calls (snd (m s))).

(** [m] only ever appends to the list of calls, and its outcome and the
    calls it appends are related by [P]. *)
Definition traced {W A} (m : M (state W) A)
    (P : result A → list call → Prop) : Prop :=
  ∀ s, ∃ evs, calls (snd (m s)) = calls s ++ evs ∧ P (fst (m s)) evs.

(** The [AssertionError] of [run_command] that belongs to a call: the one
    for a subprocess that returned a non-zero exit code. *)
Definition assertion_of (c : call) : option exn :=
  match c with
  | Call_run _ _ (inr rc) =>
      if rc =? 0 then None
      else Some (AssertionError ("Failed with exit code " +:+ pretty rc))
  | _ => None
  end.

Definition error_of {A} (r : result A) : option exn :=
  match r with
  | inl e => Some e
  | inr _ => None
  end.

(** No subprocess of [evs] returned a non-zero exit code, or exactly the
    last one did and the outcome is its [AssertionError]. *)
Definition aborts_on_failure (err : option exn) (evs : list call) : Prop :=
  Forall (λ c, assertion_of c = None) evs ∨
  ∃ pre c e, evs = pre ++ [c] ∧ Forall (λ c, assertion_of c = None) pre ∧
             assertion_of c = Some e ∧ err = Some e.

Definition disciplined {W A} (m : M (state W) A) : Prop :=
  traced m (λ r evs, aborts_on_failure (error_of r) evs).

(** The calls of a [download_file] that returns; [found] is the answer of
    [os.path.exists] when it is asked. *)
Definition fetch_calls (a : args) (url filename : string) (found : bool)
  : list call :=
  if redownload a then
    [Call_urlretrieve url filename (inr tt); Call_chmod filename 493 (inr tt)]
  else if found then
    [Call_exists filename true; Call_chmod filename 493 (inr tt)]
  else
    [Call_exists filename false; Call_urlretrieve url filename (inr tt);
     Call_chmod filename 493 (inr tt)].

(** Whether [filename] was downloaded by one of [evs]. *)
Definition downloaded (filename : string) (evs : list call) : bool :=
  existsb (λ c, match c with
                | Call_urlretrieve _ f _ => String.eqb f filename
                | _ => false
                end) evs.

(** The calls the loop over [libs] makes when it completes. *)
Definition copy_call (c : call) : bool :=
  match c with
  | Call_exists _ _ | Call_makedirs _ (inr _) | Call_copyfile _ _ (inr _) => true
  | _ => false
  end.

(** The keys [data] is subscripted with, in the order of the script. *)
Definition keys_read : list string := ["libs"; "packages"; "excludes"].

End build_appimage.

(** ** Executable instances of the interfaces

    Small stand-ins for the libraries and for the operating system, on
    which the two programs can be run. *)

Module raster.

(** An image is a grid of one-byte pixels, given row by row; the grid
    without rows is the null image.  A transform is the angle it rotates
    by, in degrees; rotations by multiples of 90 degrees are carried out,
    any other transform leaves the grid as it is. *)

Definition img : Type := list (list byte).

Fixpoint chunks (fuel width : nat) (l : list byte) : list (list byte) :=
  match fuel with
  | O => []
  | S fuel' =>
      match l with
      | [] => []
      | _ => take width l :: chunks fuel' width (drop width l)
      end
  end.

Fixpoint transpose (g : list (list byte)) : list (list byte) :=
  match g with
  | [] => []
  | [row] => (λ x, [x]) <$> row
  | row :: rest => zip_with cons row (transpose rest)
  end.

Definition rot90 (g : img) : img := (@rev byte) <$> transpose g.

Definition mirrored (g : img) (horizontal vertical : bool) : img :=
  let g := if horizontal then (@rev byte) <$> g else g in
  if vertical then rev g else g.

Definition transformed (g : img) (angle : Z) : img :=
  let a := angle `mod` 360 in
  if a =? 90 then rot90 g
  else if a =? 180 then rot90 (rot90 g)
  else if a =? 270 then rot90 (rot90 (rot90 g))
  else g.

(** The file format of the stand-in decoders: the first byte is the EXIF
    orientation ([x00]: no orientation tag, [xff]: a damaged EXIF block),
    the second the width, the rest the pixels. *)
Definition decode (data : list byte) : img :=
  match data with
  | _ :: w :: pixels =>
      let width := N.to_nat (Byte.to_N w) in
      if (width =? 0)%nat then []
      else if (length pixels `mod` width =? 0)%nat
           then chunks (length pixels) width pixels
           else []
  | _ => []
  end.

Definition QImage_new (path : option string) (fs : gmap string (list byte))
  : img :=
  match path with
  | Some p => match fs !! p with
              | Some data => decode data
              | None => []
              end
  | None => []
  end.

Definition isNull (g : img) : bool :=
  match g with [] => true | _ => false end.

Definition piexif_load (path : option string) (fs : gmap string (list byte))
  : result exif_dict :=
  match path with
  | None => inl (ValueError "no path")
  | Some p =>
      match fs !! p with
      | None => inl (FileNotFoundError p)
      | Some (x00 :: _) => inr (mkExif ∅)
      | Some (xff :: _) => inl (Exception_ "struct.error" "unpack requires a buffer")
      | Some (o :: _) =>
          inr (mkExif {[ImageIFD_Orientation := ExifInt (Z.of_N (Byte.to_N o))]})
      | Some [] => inl (Exception_ "InvalidImageDataError" "Given file is neither JPEG nor TIFF.")
      end
  end.

End raster.

#[local] Instance raster_QtGui : QtGui := {|
  QImage := raster.img;
  QTransform := Z;
  QImage_new := raster.QImage_new;
  isNull := raster.isNull;
  mirrored := raster.mirrored;
  QTransform_new := 0;
  rotate := Z.add;
  transformed := raster.transformed;
  QImage_new_None_isNull := λ _, eq_refl
|}.

(** A picture of 3 by 2 pixels with the given orientation byte. *)
Definition picture (orientation : byte) : list byte :=
  [orientation; x03; x0a; x0b; x0c; x0d; x0e; x0f].

(** The network of the examples: one address serves the picture, any
    other http(s) address cannot be resolved ([URLError]), and a URL
    without a scheme is refused by [urlopen] with [ValueError]. *)
Definition example_urlopen_read (u : string) : result (list byte) :=
  if String.eqb u "https://example.org/bee.img" then inr (picture x06)
  else if String.prefix "https://" u || String.prefix "http://" u
       then inl (URLError "[Errno -2] Name or service not known")
       else inl (ValueError ("unknown url type: '" +:+ u +:+ "'")).

#[local] Instance example_ImageLibs : ImageLibs := {|
  piexif_load := raster.piexif_load;
  urlopen_read := example_urlopen_read;
  tempfile_name := λ n, "/tmp/tmp" +:+ pretty n
|}.

(** An EXIF parser that reports, for every file, an Orientation tag
    declared as DOUBLE with the value 6.0, that is 3 * 2^1. *)
Definition float_tag_ImageLibs : ImageLibs := {|
  piexif_load := λ _ _,
    inr (mkExif {[ImageIFD_Orientation
                    := ExifFloat (SpecFloat.S754_finite false 3 1)]});
  urlopen_read := example_urlopen_read;
  tempfile_name := λ n, "/tmp/tmp" +:+ pretty n
|}.

#[local] Instance posix_OsPath : OsPath := posixpath.instance.

Definition example_files (orientation : byte) : gmap string (list byte) :=
  {[ "/home/bee/pic.img" := picture orientation;
     "/home/bee/notes.txt" := [x68; x69] ]}.

Definition example_state (orientation : byte) : image.state :=
  image.mkState (example_files orientation) 0 [] [].

Module machine.

(** A machine for the build script: files with their content, the
    documents the JSON files parse to, whether the network is reachable,
    and the exit code of each program (0 when not listed). *)
Record world : Type := mkWorld {
  disk : gmap string string;
  documents : gmap string json_doc;
  online : bool;
  exit_codes : gmap string Z
}.

Definition set_disk (w : world) (d : gmap string string) : world :=
  mkWorld d (documents w) (online w) (exit_codes w).

Definition below (dir p : string) : bool :=
  String.eqb dir p || String.prefix (dir +:+ "/") p.

Definition exists_ (p : string) (w : world) : bool :=
  bool_decide (is_Some (disk w !! p)).

Definition urlretrieve (u filename : string) (w : world)
  : result unit * world :=
  if online w then (inr tt, set_disk w (<[filename := u]> (disk w)))
  else (inl (URLError "[Errno -3] Temporary failure in name resolution"), w).

Definition chmod (p : string) (mode : Z) (w : world) : result unit * world :=
  if exists_ p w then (inr tt, w) else (inl (FileNotFoundError p), w).

Definition rmtree (p : string) (w : world) : result unit * world :=
  let rest := filter (λ kv, below p kv.1 = false) (disk w) in
  if bool_decide (rest = disk w) then (inl (FileNotFoundError p), w)
  else (inr tt, set_disk w rest).

(** What the Python base image unpacks to. *)
Definition base_image : gmap string string :=
  {[ "squashfs-root/AppRun" := "-> usr/bin/python3.11";
     "squashfs-root/usr/bin/pip" := "pip";
     "squashfs-root/usr/lib/libz.so.1" := "zlib" ]}.

Definition run (argv : list string) (capture_output : bool) (w : world)
  : result Z * world :=
  match argv with
  | [] => (inl (Exception_ "IndexError" "tuple index out of range"), w)
  | prog :: _ =>
      if existsb posixpath.is_sep (posixpath.chars prog)
         && negb (exists_ (posixpath.normpath prog) w)
      then (inl (FileNotFoundError prog), w)
      else
        let code := default 0 (exit_codes w !! prog) in
        if (code =? 0) && String.eqb prog "./python.appimage"
        then (inr code, set_disk w (base_image ∪ disk w))
        else (inr code, w)
  end.

Definition read_json (p : string) (w : world) : result json_doc * world :=
  match documents w !! p with
  | Some d => (inr d, w)
  | None => (inl (FileNotFoundError p), w)
  end.

Definition walk (top : string) (w : world)
  : list (string * list string * list string) :=
  (λ kv, (posixpath.dirname kv.1, [], [posixpath.basename kv.1]))
    <$> map_to_list (filter (λ kv, below top kv.1 = true) (disk w)).

Definition makedirs (p : string) (w : world) : result unit * world :=
  (inr tt, w).

Definition copyfile (src dst : string) (w : world) : result unit * world :=
  match disk w !! src with
  | Some content => (inr tt, set_disk w (<[dst := content]> (disk w)))
  | None => (inl (FileNotFoundError src), w)
  end.

Definition remove (p : string) (w : world) : result unit * world :=
  if exists_ p w then (inr tt, set_disk w (delete p (disk w)))
  else (inl (FileNotFoundError p), w).

Definition write_text (p content : string) (w : world)
  : result unit * world :=
  (inr tt, set_disk w (<[p := content]> (disk w))).

Definition format_tuple (l : list string) : string :=
  "(" +:+ build_appimage.str_join ", " ((λ x, "'" +:+ x +:+ "'") <$> l)
      +:+ (if (length l =? 1)%nat then "," else EmptyString) +:+ ")".

End machine.

#[local] Instance machine_BuildOS : BuildOS machine.world := {|
  os_path_exists := machine.exists_;
  urlretrieve := machine.urlretrieve;
  os_chmod := machine.chmod;
  shutil_rmtree := machine.rmtree;
  subprocess_run := machine.run;
  read_json := machine.read_json;
  os_walk := machine.walk;
  os_makedirs := machine.makedirs;
  shutil_copyfile := machine.copyfile;
  os_remove := machine.remove;
  write_text := machine.write_text;
  format_tuple := machine.format_tuple;
  list_of_set := elements;
  list_of_set_perm := λ _, reflexivity _
|}.

(** A build from a clean checkout with three libraries to look at. *)
Definition example_args : build_appimage.args :=
  build_appimage.mkArgs "v0.3.3" "tools/linux_libs.json" false true "INFO".

Definition example_doc : json_doc :=
  {[ "libs" := ["/usr/lib/x86_64-linux-gnu/libxcb.so.1";
                "/usr/lib/x86_64-linux-gnu/libz.so.1";
                "/usr/lib/x86_64-linux-gnu/libc.so.6";
                "/usr/lib/x86_64-linux-gnu/libGL.so.1"];
     "packages" := ["libxcb1"; "libgl1"];
     "excludes" := ["libc.so.6"] ]}.

Definition example_disk : gmap string string :=
  {[ "/usr/lib/x86_64-linux-gnu/libxcb.so.1" := "xcb";
     "/usr/lib/x86_64-linux-gnu/libz.so.1" := "zlib";
     "/usr/lib/x86_64-linux-gnu/libc.so.6" := "libc";
     "/usr/lib/x86_64-linux-gnu/libGL.so" := "GL" ]}.

Definition example_world (d : gmap string string) (doc : json_doc)
    (codes : gmap string Z) : machine.world :=
  machine.mkWorld d {[ "tools/linux_libs.json" := doc ]} true codes.

Definition start (w : machine.world) : build_appimage.state machine.world :=
  build_appimage.mkState w [] [].

Definition failing_pip : gmap string Z := {[ "squashfs-root/usr/bin/pip" := 1 ]}.

Definition doc_without_excludes : json_doc :=
  {[ "libs" := ["/usr/lib/x86_64-linux-gnu/libxcb.so.1"];
     "packages" := ["libxcb1"] ]}.

Definition bee_url (address : string) : QUrl := mkQUrl false EmptyString address.

(** ** Further vocabulary for the properties below *)

(** The local path an argument of [load_image] stands for, if any. *)
Definition local_path (path : image.path_arg) : option string :=
  match path with
  | image.Str p => Some p
  | image.Url u => if isLocalFile u then Some (toLocalFile u) else None
  end.

Section call_predicates.
Context `{OsPath}.

Import build_appimage.

(** The exception a call ends the script with: the one the call raised, or
    the [AssertionError] of [run_command] for a non-zero exit code.  A
    [FileNotFoundError] of [shutil.rmtree] is caught by the script. *)
Definition raised_by (c : call) : option exn :=
  match c with
  | Call_rmtree _ (inl e) => if is_FileNotFoundError e then None else Some e
  | Call_run _ _ (inr rc) =>
      if rc =? 0 then None
      else Some (AssertionError ("Failed with exit code " +:+ pretty rc))
  | Call_run _ _ (inl e)
  | Call_urlretrieve _ _ (inl e)
  | Call_chmod _ _ (inl e)
  | Call_read_json _ (inl e)
  | Call_makedirs _ (inl e)
  | Call_copyfile _ _ (inl e)
  | Call_remove _ (inl e)
  | Call_write _ _ (inl e) => Some e
  | _ => None
  end.

(** Either nothing went wrong, or the last call is the first that went
    wrong and the outcome is its exception. *)
Definition fail_stop (err : option exn) (evs : list call) : Prop :=
  (err = None ∧ Forall (λ c, raised_by c = None) evs) ∨
  ∃ pre c e, evs = pre ++ [c] ∧ Forall (λ c, raised_by c = None) pre ∧
             raised_by c = Some e ∧ err = Some e.

Definition stops {W A} (m : M (state W) A) : Prop :=
  traced m (λ r evs, fail_stop (error_of r) evs).

(** The document was read as the last call, and subscripting it with one
    of the keys raised [KeyError]. *)
Definition key_stop (a : args) (err : option exn) (evs : list call) : Prop :=
  ∃ pre data k,
    evs = pre ++ [Call_read_json (jsonfile a) (inr data)] ∧
    Forall (λ c, raised_by c = None) pre ∧
    k ∈ keys_read ∧ data !! k = None ∧ err = Some (KeyError k).

(** Every call [m] makes satisfies [P], however [m] ends. *)
Definition only_calls {W A} (P : call → Prop) (m : M (state W) A) : Prop :=
  traced m (λ _ evs, Forall P evs).

(** What the script does to the machine, for the command line [a]. *)
Definition confined (a : args) (c : call) : Prop :=
  match c with
  | Call_exists _ _ => True
  | Call_read_json p _ => p = jsonfile a
  | Call_walk top _ => top = "squashfs-root"
  | Call_urlretrieve u f _ =>
      (u, f) = (python_url, "python.appimage") ∨
      (u, f) = (appimagetool_url, "appimagetool.appimage")
  | Call_chmod p mode _ =>
      mode = 493 ∧
      p ∈ ["python.appimage"; "squashfs-root/AppRun"; "appimagetool.appimage"]
  | Call_rmtree p _ => p = "squashfs-root"
  | Call_run argv capture_output _ =>
      (argv, capture_output) = (extract_argv, true) ∨
      (argv, capture_output) = (pip_argv, false) ∨
      (argv, capture_output) = (appimagetool_argv a, false) ∨
      (skip_apt a = false ∧ capture_output = false ∧
       ∃ packages, argv = apt_argv packages)
  | Call_makedirs p _ => ∃ f, p = os_path_dirname ("squashfs-root" +:+ f)
  | Call_copyfile src dst _ => dst = "squashfs-root" +:+ src
  | Call_remove p _ => p = "squashfs-root/AppRun"
  | Call_write p _ _ => p = "squashfs-root/AppRun"
  end.

(** Whether the loop over [libs] passes over an entry. *)
Definition skipped (existing_files excludes : list string) (lib : string)
  : bool :=
  bool_decide (os_path_basename lib ∈ existing_files)
  || bool_decide (os_path_basename lib ∈ excludes).

(** The calls of one pass of the loop body that copies [lib]: the
    directory is made and the file copied; [found] is the answer of
    [os.path.exists]. *)
Definition lib_calls (lib : string) (found : bool) : list call :=
  let filename := if found then lib else fst (os_path_splitext lib) in
  let dest := "squashfs-root" +:+ filename in
  [Call_exists lib found;
   Call_makedirs (os_path_dirname dest) (inr tt);
   Call_copyfile filename dest (inr tt)].

(** The calls of the loop over [libs] when it completes: none for an
    entry that is skipped, those of [lib_calls] for any other; [founds]
    holds, entry by entry, the answer of [os.path.exists]. *)
Definition libs_calls (existing_files excludes libs : list string)
    (founds : list bool) : list call :=
  concat (zip_with (λ lib found,
                      if skipped existing_files excludes lib then []
                      else lib_calls lib found) libs founds).

Definition is_copyfile (c : call) : bool :=
  match c with
  | Call_copyfile _ _ _ => true
  | _ => false
  end.

(** The text of the launcher for the directories [dirs], lines 131 to
    157 with [list(paths)] being [dirs]. *)
Definition AppRun_text (dirs : list string) : string :=
  let paths := "/usr/lib" :: dirs in
  let ld_paths :=
    ((λ p, "${APPDIR}" +:+ p) <$> paths) ++ ["${LD_LIBRARY_PATH}"] in
  let ld_paths := str_join ":" ld_paths in
  let content := AppRun_head in
  let content :=
    content +:+ "export LD_LIBRARY_PATH=" +:+ dq +:+ ld_paths +:+ dq
            +:+ nl in
  content +:+ dq +:+ "$APPDIR/opt/python" +:+ PYVER +:+ "/bin/python"
          +:+ PYVER +:+ dq +:+ " -I -m beeref " +:+ dq +:+ "$@" +:+ dq
          +:+ nl.

End call_predicates.

Definition doc_all_skipped : json_doc :=
  {[ "libs" := ["/usr/lib/x86_64-linux-gnu/libz.so.1";
                "/usr/lib/x86_64-linux-gnu/libc.so.6"];
     "packages" := ["libxcb1"];
     "excludes" := ["libc.so.6"] ]}.

Definition offline (w : machine.world) : machine.world :=
  machine.mkWorld (machine.disk w) (machine.documents w) false
    (machine.exit_codes w).

(** * [os.path] on sample paths *)

Example normpath_ex1 : posixpath.normpath "/home//bee/./pics/../cat.jpg" = "/home/bee/cat.jpg".
Proof. reflexivity. Qed.
Example normpath_ex2 : posixpath.normpath "../a/" = "../a".
Proof. reflexivity. Qed.
Example normpath_ex3 : posixpath.normpath "//x/.." = "//".
Proof. reflexivity. Qed.
Example basename_ex : posixpath.basename "/usr/lib/libz.so.1" = "libz.so.1".
Proof. reflexivity. Qed.
Example dirname_ex : posixpath.dirname "/usr/lib/libz.so.1" = "/usr/lib".
Proof. reflexivity. Qed.
Example splitext_ex1 : posixpath.splitext "/usr/lib/libz.so.1" = ("/usr/lib/libz.so", ".1").
Proof. reflexivity. Qed.
Example splitext_ex2 : posixpath.splitext "/a.b/.bashrc" = ("/a.b/.bashrc", EmptyString).
Proof. reflexivity. Qed.
Example join_ex : posixpath.join "/tmp/tmpab12" "img" = "/tmp/tmpab12/img".
Proof. reflexivity. Qed.

(** * Floats against integers *)

Example float_eq_int_6 :
  float_eq_int (SpecFloat.S754_finite false 6755399441055744 (-50)) 6 = true.
Proof. reflexivity. Qed.
Example float_eq_int_half :
  float_eq_int (SpecFloat.S754_finite false 5 (-1)) 2 = false.
Proof. reflexivity. Qed.
Example float_eq_int_nan : float_eq_int SpecFloat.S754_nan 0 = false.
Proof. reflexivity. Qed.

(** A float is equal to at most one integer. *)
Lemma float_eq_int_unique x k j :
  float_eq_int x k = true → float_eq_int x j = (j =? k).
Proof.
  destruct x as [sg|sg| |sg m e]; simpl; try done.
  - intros ->%Z.eqb_eq. done.
  - destruct (0 <=? e) eqn:He.
    + intros <-%Z.eqb_eq. apply Z.eqb_sym.
    + apply Z.leb_gt in He. intros Hk%Z.eqb_eq. rewrite Hk.
      assert (0 < 2 ^ (- e)) as Hpos by (apply Z.pow_pos_nonneg; lia).
      destruct (Z.eqb_spec j k) as [->|Hne].
      * apply Z.eqb_refl.
      * apply Z.eqb_neq. intros Heq. apply Hne.
        apply Z.mul_cancel_r in Heq; [done|lia].
Qed.

(** * Properties of the image helper *)

Section image_spec.
Context `{QtGui} `{ImageLibs} `{OsPath}.

Import image.

Ltac run_image :=
  unfold load_image, exif_rotated_image, new_QImage, load_exif, download,
    with_TemporaryDirectory, write_file, logger_exception, logger_debug,
    log, emit, bind, try_, ret, raise, modify, gets;
  simpl.

(** When the image does not decode, the constructor is the only call. *)
Lemma exif_rotated_image_null path s :
  isNull (QImage_new path (files s)) = true →
  exif_rotated_image path s =
    (inr (QImage_new path (files s)),
     mkState (files s) (tmp_count s) (calls s ++ [Call_QImage path]) (logs s)).
Proof. intros Hnull. run_image. by rewrite Hnull. Qed.

(** [exif_rotated_image] never raises and leaves the files alone: it makes
    calls, the first of them the [QImage] constructor, and may log. *)
Lemma exif_rotated_image_returns path s :
  ∃ img evs lg,
    exif_rotated_image path s =
      (inr img,
       mkState (files s) (tmp_count s) (calls s ++ Call_QImage path :: evs)
         (logs s ++ lg)).
Proof.
  run_image.
  destruct (isNull _); simpl.
  { eexists _, [], []. by rewrite app_nil_r. }
  destruct (piexif_load _ _) as [e|d]; simpl.
  { eexists _, [_], [_]. by rewrite <- app_assoc. }
  assert (∀ img : QImage, ∃ img' evs lg,
    (inr img : result QImage,
     mkState (files s) (tmp_count s)
       ((calls s ++ [Call_QImage path]) ++ [Call_piexif_load path]) (logs s)) =
    (inr img', mkState (files s) (tmp_count s)
       (calls s ++ Call_QImage path :: evs) (logs s ++ lg))) as Hret.
  { intros img. eexists img, [_], []. by rewrite <- app_assoc, app_nil_r. }
  destruct (ifd_0th d !! ImageIFD_Orientation) as [o|]; [|apply Hret].
  repeat (destruct (py_eq_int o _); [apply Hret|]). apply Hret.
Qed.

(** The result on an image that decodes and whose EXIF block parses. *)
Lemma exif_rotated_image_parsed path s exif :
  isNull (QImage_new path (files s)) = false →
  piexif_load path (files s) = inr exif →
  fst (exif_rotated_image path s) =
    let img := QImage_new path (files s) in
    match ifd_0th exif !! ImageIFD_Orientation with
    | None => inr img
    | Some o =>
        if py_eq_int o 2 then inr (mirrored img true false)
        else if py_eq_int o 3 then inr (transformed img (rotate QTransform_new 180))
        else if py_eq_int o 4 then inr (mirrored img false true)
        else if py_eq_int o 5 then
          inr (mirrored (transformed img (rotate QTransform_new 90)) true false)
        else if py_eq_int o 6 then inr (transformed img (rotate QTransform_new 90))
        else if py_eq_int o 7 then
          inr (mirrored (transformed img (rotate QTransform_new 270)) true false)
        else if py_eq_int o 8 then inr (transformed img (rotate QTransform_new 270))
        else inr img
    end.
Proof.
  intros Hnull Hexif. run_image. rewrite Hnull. simpl. rewrite Hexif. simpl.
  destruct (ifd_0th exif !! ImageIFD_Orientation) as [o|]; [|done].
  repeat (destruct (py_eq_int o _); [done|]). done.
Qed.

(** C1. For an image that decodes and whose EXIF 0th IFD holds an
    Orientation tag, the result is fixed by the value of the tag: 1 gives
    the decoded image as it is, 2 its horizontal mirror, 3 a rotation by 180
    degrees, 4 its vertical mirror, 5 a rotation by 90 degrees followed by a
    horizontal mirror, 6 a rotation by 90 degrees, 7 a rotation by 270
    degrees followed by a horizontal mirror, 8 a rotation by 270 degrees. *)
Theorem exif_rotated_image_orientation path s exif v :
  isNull (QImage_new path (files s)) = false →
  piexif_load path (files s) = inr exif →
  ifd_0th exif !! ImageIFD_Orientation = Some (ExifInt v) →
  let img := QImage_new path (files s) in
  let r := fst (exif_rotated_image path s) in
  (v = 1 → r = inr img) ∧
  (v = 2 → r = inr (mirrored img true false)) ∧
  (v = 3 → r = inr (transformed img (rotate QTransform_new 180))) ∧
  (v = 4 → r = inr (mirrored img false true)) ∧
  (v = 5 → r = inr (mirrored (transformed img (rotate QTransform_new 90))
                      true false)) ∧
  (v = 6 → r = inr (transformed img (rotate QTransform_new 90))) ∧
  (v = 7 → r = inr (mirrored (transformed img (rotate QTransform_new 270))
                      true false)) ∧
  (v = 8 → r = inr (transformed img (rotate QTransform_new 270))).
Proof.
  intros Hnull Hexif Htag img r. subst r.
  rewrite (exif_rotated_image_parsed _ _ _ Hnull Hexif), Htag. simpl.
  repeat split; intros ->; reflexivity.
Qed.

(** C2. When the image decodes and [piexif.load] raises, whatever the
    exception, the decoded image is returned as it is; the exception is
    handed to the logger and goes no further. *)
Theorem exif_rotated_image_exif_failure path s e :
  isNull (QImage_new path (files s)) = false →
  piexif_load path (files s) = inl e →
  exif_rotated_image path s =
    (inr (QImage_new path (files s)),
     mkState (files s) (tmp_count s)
       (calls s ++ [Call_QImage path; Call_piexif_load path])
       (logs s ++ [LogRecord ERROR
                     ("Exif parser failed on image: " +:+ format_path path)
                     (Some e)])).
Proof.
  intros Hnull Hexif. run_image. rewrite Hnull. simpl. rewrite Hexif. simpl.
  by rewrite <- app_assoc.
Qed.

(** C8. When decoding fails, the null image is returned at once: the
    [QImage] constructor is the only call made (the EXIF parser is not
    called), nothing is logged and no transform is applied. *)
Theorem exif_rotated_image_null_unchanged path s :
  isNull (QImage_new path (files s)) = true →
  exif_rotated_image path s =
    (inr (QImage_new path (files s)),
     mkState (files s) (tmp_count s) (calls s ++ [Call_QImage path]) (logs s))
  ∧ Call_piexif_load path ∉ drop (length (calls s))
                              (calls (snd (exif_rotated_image path s))).
Proof.
  intros Hnull. rewrite (exif_rotated_image_null _ _ Hnull). split; [done|].
  simpl. rewrite drop_app_length. by intros ?%list_elem_of_singleton.
Qed.

(** C9. A string is normalised with [os.path.normpath], and so is the
    local file of a URL that refers to one; the image is loaded from the
    normalised path, and the normalised path is the second component of
    the result. *)
Theorem load_image_local_normpath :
  (∀ p s,
     let path := os_path_normpath p in
     ∃ img evs s',
       exif_rotated_image (Some path) s = (inr img, s') ∧
       calls s' = calls s ++ Call_QImage (Some path) :: evs ∧
       load_image (Str p) s = (inr (img, path), s')) ∧
  (∀ u s,
     isLocalFile u = true →
     let path := os_path_normpath (toLocalFile u) in
     ∃ img evs s',
       exif_rotated_image (Some path) s = (inr img, s') ∧
       calls s' = calls s ++ Call_QImage (Some path) :: evs ∧
       load_image (Url u) s = (inr (img, path), s')).
Proof.
  split.
  - intros p s path.
    destruct (exif_rotated_image_returns (Some path) s) as (img & evs & lg & Hr).
    eexists img, evs, _. split; [exact Hr|]. split; [done|].
    unfold load_image, bind. fold path. by rewrite Hr.
  - intros u s Hlocal path.
    destruct (exif_rotated_image_returns (Some path) s) as (img & evs & lg & Hr).
    eexists img, evs, _. split; [exact Hr|]. split; [done|].
    unfold load_image, bind. rewrite Hlocal. fold path. by rewrite Hr.
Qed.

(** C3, amended. When the URL is not a local file and the download raises
    [URLError] (or a subclass of it), the result is the null image built
    without a path, paired with the URL; the reason is logged at debug
    level and nothing is raised.  An exception of any other class leaves
    [load_image] as it is, and nothing is logged. *)
Theorem load_image_URLError u s e :
  isLocalFile u = false →
  urlopen_read (url u) = inl e →
  (is_URLError e = true →
   isNull (QImage_new None (files s)) = true ∧
   load_image (Url u) s =
     (inr (QImage_new None (files s), url u),
      mkState (files s) (tmp_count s)
        (calls s ++ [Call_QImage None; Call_urlopen (url u)])
        (logs s ++ [LogRecord DEBUG
                      ("Downloading image failed: " +:+ reason_of e) None]))) ∧
  (is_URLError e = false →
   load_image (Url u) s =
     (inl e,
      mkState (files s) (tmp_count s)
        (calls s ++ [Call_QImage None; Call_urlopen (url u)]) (logs s))).
Proof.
  intros Hlocal Hdl.
  assert (∀ k : QImage → M state (QImage * string),
            bind (exif_rotated_image None) k s
            = k (QImage_new None (files s))
                (mkState (files s) (tmp_count s)
                   (calls s ++ [Call_QImage None]) (logs s))) as Hfirst.
  { intros k. unfold bind at 1.
    by rewrite (exif_rotated_image_null None s (QImage_new_None_isNull _)). }
  split; intros Hcls.
  - split; [apply QImage_new_None_isNull|].
    unfold load_image. rewrite Hlocal, Hfirst.
    run_image. rewrite Hdl, Hcls. simpl. by rewrite <- app_assoc.
  - unfold load_image. rewrite Hlocal, Hfirst.
    run_image. rewrite Hdl, Hcls. simpl. by rewrite <- app_assoc.
Qed.

(** C5. When the URL is not a local file and the download succeeds, the
    bytes are written to the file [img] of a fresh temporary directory,
    [exif_rotated_image] is run on that file while it holds the bytes, and
    its result is returned paired with the URL. *)
Theorem load_image_download u s imgdata :
  isLocalFile u = false →
  urlopen_read (url u) = inr imgdata →
  let tmp := tempfile_name (tmp_count s) in
  let fname := os_path_join tmp "img" in
  let saved :=
    mkState (<[fname := imgdata]> (files s)) (S (tmp_count s))
      (calls s ++ [Call_QImage None; Call_urlopen (url u);
                   Call_TemporaryDirectory tmp; Call_write fname imgdata])
      (logs s ++ [LogRecord DEBUG ("Temporarily saved in: " +:+ fname) None]) in
  files saved !! fname = Some imgdata ∧
  ∃ img s1,
    exif_rotated_image (Some fname) saved = (inr img, s1) ∧
    load_image (Url u) s =
      (inr (img, url u),
       mkState (filter (λ kv, below tmp kv.1 = false) (files s1))
         (tmp_count s1) (calls s1 ++ [Call_cleanup tmp]) (logs s1)).
Proof.
  intros Hlocal Hdl tmp fname saved. split; [apply lookup_insert_eq|].
  destruct (exif_rotated_image_returns (Some fname) saved)
    as (img & evs & lg & Hr).
  eexists img, _. split; [exact Hr|].
  unfold load_image. rewrite Hlocal. unfold bind at 1.
  rewrite (exif_rotated_image_null None s (QImage_new_None_isNull _)).
  unfold download, with_TemporaryDirectory, write_file, logger_debug, log,
    emit, bind, try_, ret, raise, modify, gets. simpl.
  rewrite Hdl. simpl. fold tmp. fold fname.
  replace (mkState (<[fname:=imgdata]> (files s)) (S (tmp_count s))
             ((((calls s ++ [Call_QImage None]) ++ [Call_urlopen (url u)]) ++
               [Call_TemporaryDirectory tmp]) ++ [Call_write fname imgdata])
             (logs s ++ [LogRecord DEBUG ("Temporarily saved in: " +:+ fname) None]))
    with saved by (unfold saved; by rewrite <- !app_assoc).
  rewrite Hr. reflexivity.
Qed.

End image_spec.

(** ** The image helper on the example files *)

Lemma exif_rotated_image_orientation_witness :
  isNull (QImage_new (Some "/home/bee/pic.img") (example_files x05)) = false ∧
  fst (image.exif_rotated_image (Some "/home/bee/pic.img") (example_state x05))
  = inr (mirrored
           (transformed (QImage_new (Some "/home/bee/pic.img") (example_files x05))
              (rotate QTransform_new 90))
           true false).
Proof.
  split; [vm_compute; reflexivity|].
  apply (exif_rotated_image_orientation (Some "/home/bee/pic.img")
           (example_state x05)
           (mkExif {[ImageIFD_Orientation := ExifInt 5]}) 5);
    [vm_compute; reflexivity ..|reflexivity].
Defined.

Lemma exif_rotated_image_exif_failure_witness :
  image.exif_rotated_image (Some "/home/bee/pic.img") (example_state xff) =
    (inr [[x0a; x0b; x0c]; [x0d; x0e; x0f]],
     image.mkState (example_files xff) 0
       [image.Call_QImage (Some "/home/bee/pic.img");
        image.Call_piexif_load (Some "/home/bee/pic.img")]
       [LogRecord ERROR "Exif parser failed on image: /home/bee/pic.img"
          (Some (Exception_ "struct.error" "unpack requires a buffer"))]).
Proof.
  etrans.
  - apply (exif_rotated_image_exif_failure (Some "/home/bee/pic.img")
             (example_state xff)
             (Exception_ "struct.error" "unpack requires a buffer"));
      vm_compute; reflexivity.
  - vm_compute; reflexivity.
Defined.

Lemma exif_rotated_image_null_unchanged_witness :
  isNull (QImage_new (Some "/home/bee/notes.txt") (example_files x03)) = true ∧
  image.exif_rotated_image (Some "/home/bee/notes.txt") (example_state x03) =
    (inr [],
     image.mkState (example_files x03) 0
       [image.Call_QImage (Some "/home/bee/notes.txt")] []).
Proof.
  split; [vm_compute; reflexivity|].
  etrans.
  - apply (exif_rotated_image_null_unchanged (Some "/home/bee/notes.txt")
             (example_state x03)).
    vm_compute; reflexivity.
  - vm_compute; reflexivity.
Defined.

Lemma load_image_local_normpath_witness :
  ∃ s',
    image.load_image
      (image.Url (mkQUrl true "/home/bee/./x/../pic.img"
                    "file:///home/bee/./x/../pic.img"))
      (example_state x03)
    = (inr ([[x0f; x0e; x0d]; [x0c; x0b; x0a]], "/home/bee/pic.img"), s').
Proof.
  destruct (proj2 load_image_local_normpath
              (mkQUrl true "/home/bee/./x/../pic.img"
                 "file:///home/bee/./x/../pic.img")
              (example_state x03) eq_refl)
    as (img & evs & s' & Hrot & _ & Hload).
  exists s'. rewrite Hload.
  assert (img = [[x0f; x0e; x0d]; [x0c; x0b; x0a]]) as ->; [|reflexivity].
  assert (fst (image.exif_rotated_image (Some "/home/bee/pic.img")
                 (example_state x03)) = inr img) as Himg.
  { change (Some "/home/bee/pic.img")
      with (Some (os_path_normpath "/home/bee/./x/../pic.img")).
    simpl toLocalFile in Hrot. by rewrite Hrot. }
  vm_compute in Himg. congruence.
Defined.

Lemma load_image_URLError_witness :
  image.load_image (image.Url (bee_url "https://example.com/bee.img"))
    (example_state x03)
  = (inr ([], "https://example.com/bee.img"),
     image.mkState (example_files x03) 0
       [image.Call_QImage None;
        image.Call_urlopen "https://example.com/bee.img"]
       [LogRecord DEBUG
          "Downloading image failed: [Errno -2] Name or service not known"
          None]).
Proof.
  etrans.
  - apply (proj1 (load_image_URLError (bee_url "https://example.com/bee.img")
                    (example_state x03)
                    (URLError "[Errno -2] Name or service not known")
                    ltac:(vm_compute; reflexivity)
                    ltac:(vm_compute; reflexivity))).
    reflexivity.
  - vm_compute; reflexivity.
Defined.

(** C3 as stated fails: a URL without a scheme is not a local file,
    [urlopen] raises [ValueError] for it, and [load_image] raises that
    exception instead of returning a null image; nothing is logged. *)
Lemma load_image_ValueError_propagates :
  isLocalFile (bee_url "bee.img") = false ∧
  urlopen_read (url (bee_url "bee.img"))
  = inl (ValueError "unknown url type: 'bee.img'") ∧
  image.load_image (image.Url (bee_url "bee.img")) (example_state x03)
  = (inl (ValueError "unknown url type: 'bee.img'"),
     image.mkState (example_files x03) 0
       [image.Call_QImage None; image.Call_urlopen "bee.img"] []).
Proof. repeat split; vm_compute; reflexivity. Qed.

Lemma load_image_download_witness :
  ∃ s',
    image.load_image (image.Url (bee_url "https://example.org/bee.img"))
      (example_state x03)
    = (inr ([[x0d; x0a]; [x0e; x0b]; [x0f; x0c]],
            "https://example.org/bee.img"), s')
    ∧ image.calls s' =
        [image.Call_QImage None;
         image.Call_urlopen "https://example.org/bee.img";
         image.Call_TemporaryDirectory "/tmp/tmp0";
         image.Call_write "/tmp/tmp0/img" (picture x06);
         image.Call_QImage (Some "/tmp/tmp0/img");
         image.Call_piexif_load (Some "/tmp/tmp0/img");
         image.Call_cleanup "/tmp/tmp0"]
    ∧ image.files s' = example_files x03.
Proof.
  destruct (load_image_download (bee_url "https://example.org/bee.img")
              (example_state x03) (picture x06)
              ltac:(vm_compute; reflexivity) ltac:(vm_compute; reflexivity))
    as (_ & img & s1 & Hrot & Hload).
  vm_compute in Hrot. injection Hrot as <- <-.
  eexists. split; [exact Hload|].
  split; vm_compute; reflexivity.
Defined.

(** * Properties of the build script *)

Section monad_facts.
Context {S : Type}.

Lemma bind_inr {A B} (m : M S A) (k : A → M S B) s b s' :
  bind m k s = (inr b, s') →
  ∃ a s1, m s = (inr a, s1) ∧ k a s1 = (inr b, s').
Proof.
  unfold bind. destruct (m s) as [[e|a] s1]; [discriminate|]. eauto.
Qed.

Lemma bind_inl {A B} (m : M S A) (k : A → M S B) s e s1 :
  m s = (inl e, s1) → bind m k s = (inl e, s1).
Proof. unfold bind. by intros ->. Qed.

Lemma bind_run {A B} (m : M S A) (k : A → M S B) s a s1 :
  m s = (inr a, s1) → bind m k s = k a s1.
Proof. unfold bind. by intros ->. Qed.

(** A loop over [l1 ++ x :: l2] whose first part completes goes on with the
    body on [x], in the state the first part left. *)
Lemma for_app {A B} (body : A → B → M S A) l1 x l2 acc s acc1 s1 :
  for_ l1 acc body s = (inr acc1, s1) →
  for_ (l1 ++ x :: l2) acc body s
  = bind (body acc1 x) (λ acc2, for_ l2 acc2 body) s1.
Proof.
  revert acc s. induction l1 as [|y l1 IH]; intros acc s Hrun; simpl in *.
  - unfold ret in Hrun. by injection Hrun as -> ->.
  - apply bind_inr in Hrun as (acc' & s' & Hy & Hrest).
    rewrite (bind_run _ _ _ _ _ Hy). by apply IH.
Qed.

End monad_facts.

Section build_spec.
Context {W : Type} `{BuildOS W} `{OsPath}.

Import build_appimage.

(** *** Exit codes *)

Lemma run_command_run argv cap (s : state W) rc w :
  subprocess_run argv cap (world s) = (inr rc, w) →
  run_command argv cap s =
    (if rc =? 0 then inr tt
     else inl (AssertionError ("Failed with exit code " +:+ pretty rc)),
     mkState w (calls s ++ [Call_run argv cap (inr rc)])
       (logs s ++ [LogRecord INFO ("Running command: " +:+ format_tuple argv)
                     None])).
Proof.
  intros Hrun.
  unfold run_command, logger_info, log, os_call, assert_, bind, modify, ret,
    raise. simpl. rewrite Hrun. by destruct (rc =? 0).
Qed.

Lemma disciplined_ret {A} (a : A) : disciplined (ret a : M (state W) A).
Proof. intros s. exists []. rewrite app_nil_r. split; [done|]. by left. Qed.

Lemma disciplined_raise {A} e : disciplined (raise e : M (state W) A).
Proof. intros s. exists []. rewrite app_nil_r. split; [done|]. by left. Qed.

Lemma disciplined_log lvl msg : disciplined (log (W:=W) lvl msg).
Proof. intros s. exists []. rewrite app_nil_r. split; [done|]. by left. Qed.

Lemma disciplined_os_query {A} (q : W → A) ev :
  (∀ a, assertion_of (ev a) = None) → disciplined (os_query q ev).
Proof.
  intros Hev s. exists [ev (q (world s))]. split; [done|].
  left. by constructor.
Qed.

Lemma disciplined_os_call {A} (op : W → result A * W) ev :
  (∀ r, assertion_of (ev r) = None) → disciplined (os_call op ev).
Proof.
  intros Hev s. unfold os_call. destruct (op (world s)) as [r w].
  exists [ev r]. split; [done|]. left. by constructor.
Qed.

Lemma disciplined_bind {A B} (m : M (state W) A) (k : A → M (state W) B) :
  disciplined m → (∀ a, disciplined (k a)) → disciplined (bind m k).
Proof.
  intros Hm Hk s. unfold bind.
  destruct (Hm s) as (evs1 & Hc1 & Hd1).
  destruct (m s) as [[e|a] s1]; simpl in *; [by exists evs1|].
  destruct Hd1 as [Hclean|(? & ? & ? & _ & _ & _ & ?)]; [|done].
  destruct (Hk a s1) as (evs2 & Hc2 & Hd2).
  exists (evs1 ++ evs2). split; [by rewrite Hc2, Hc1, app_assoc|].
  destruct Hd2 as [Hclean2|(pre & c & e & -> & Hpre & Hc & He)].
  - left. by apply Forall_app.
  - right. exists (evs1 ++ pre), c, e. rewrite app_assoc.
    repeat split; try done. by apply Forall_app.
Qed.

Lemma disciplined_run_command argv cap : disciplined (run_command argv cap).
Proof.
  intros s.
  destruct (subprocess_run argv cap (world s)) as [[e|rc] w] eqn:Hrun.
  - exists [Call_run argv cap (inl e)].
    unfold run_command, logger_info, log, os_call, bind, modify. simpl.
    rewrite Hrun. simpl. split; [done|]. left. by constructor.
  - rewrite (run_command_run _ _ _ _ _ Hrun). simpl.
    exists [Call_run argv cap (inr rc)]. split; [done|].
    destruct (rc =? 0) eqn:Hrc.
    + left. constructor; [|done]. simpl. by rewrite Hrc.
    + right. eexists [], (Call_run argv cap (inr rc)), _.
      repeat split; try done; simpl; by rewrite Hrc.
Qed.

Lemma disciplined_for {A B} (body : A → B → M (state W) A) l acc :
  (∀ acc x, disciplined (body acc x)) → disciplined (for_ l acc body).
Proof.
  intros Hbody. revert acc. induction l as [|x l IH]; intros acc; simpl.
  - apply disciplined_ret.
  - apply disciplined_bind; [apply Hbody|]. intros acc'. apply IH.
Qed.

Lemma disciplined_getitem data key :
  disciplined (getitem (W:=W) data key).
Proof.
  unfold getitem. destruct (data !! key);
    [apply disciplined_ret|apply disciplined_raise].
Qed.

Lemma disciplined_try_rmtree :
  disciplined (try_ (os_call (shutil_rmtree "squashfs-root")
                             (Call_rmtree "squashfs-root"))).
Proof.
  intros s. unfold try_, os_call.
  destruct (shutil_rmtree _ _) as [r w]. simpl.
  exists [Call_rmtree "squashfs-root" r]. split; [done|]. left. by constructor.
Qed.

Create HintDb discipline discriminated.
#[local] Hint Resolve disciplined_ret disciplined_raise disciplined_log
  disciplined_getitem disciplined_run_command disciplined_try_rmtree
  : discipline.

(** Takes a program apart along its binds and branches; the blocks that
    have a lemma in the hint base are closed with it. *)
Ltac discipline :=
  repeat first
    [ solve [auto with discipline]
    | apply disciplined_os_query; done
    | apply disciplined_os_call; done
    | apply disciplined_for; intros ??
    | match goal with
      | |- disciplined (match ?r with inl _ => _ | inr _ => _ end) => destruct r
      | |- disciplined (if ?b then _ else _) => destruct b
      end
    | apply disciplined_bind; [|intros ?] ].

Lemma disciplined_download_file a u f : disciplined (download_file a u f).
Proof. unfold download_file, logger_info. discipline. Qed.

Lemma disciplined_copy_lib ef ex paths lib :
  disciplined (copy_lib ef ex paths lib).
Proof. unfold copy_lib, logger_debug. discipline. Qed.

Lemma disciplined_write_run_script paths :
  disciplined (write_run_script paths).
Proof. unfold write_run_script, logger_info, logger_debug. discipline. Qed.

#[local] Hint Resolve disciplined_download_file disciplined_copy_lib
  disciplined_write_run_script : discipline.

Lemma disciplined_after_json a data : disciplined (after_json a data).
Proof. unfold after_json, logger_info. discipline. Qed.

#[local] Hint Resolve disciplined_after_json : discipline.

Lemma disciplined_main a : disciplined (main a).
Proof. unfold main, before_json, logger_info. discipline. Qed.

Lemma traced_emitted {A} (m : M (state W) A) P s :
  traced m P → calls (snd (m s)) = calls s ++ emitted m s ∧
               P (fst (m s)) (emitted m s).
Proof.
  intros Hm. destruct (Hm s) as (evs & Hc & HP). unfold emitted.
  by rewrite Hc, drop_app_length.
Qed.

(** C4. A command run through [run_command] whose subprocess returns a
    non-zero exit code raises [AssertionError] and what follows it is not
    run; with exit code zero what follows is run.  In the script nothing
    catches the exception: a subprocess with a non-zero exit code is the
    last call of the run and the run ends in its [AssertionError]. *)
Theorem run_command_exit_code :
  (∀ argv cap (s : state W) rc w B (k : unit → M (state W) B),
     subprocess_run argv cap (world s) = (inr rc, w) →
     let s1 :=
       mkState w (calls s ++ [Call_run argv cap (inr rc)])
         (logs s ++ [LogRecord INFO
                       ("Running command: " +:+ format_tuple argv) None]) in
     (rc ≠ 0 →
      bind (run_command argv cap) k s =
        (inl (AssertionError ("Failed with exit code " +:+ pretty rc)), s1)) ∧
     (rc = 0 → bind (run_command argv cap) k s = k tt s1)) ∧
  (∀ a (s : state W) pre argv cap rc post,
     emitted (main a) s = pre ++ Call_run argv cap (inr rc) :: post →
     rc ≠ 0 →
     post = [] ∧
     fst (main a s) =
       inl (AssertionError ("Failed with exit code " +:+ pretty rc))).
Proof.
  split.
  - intros argv cap s rc w B k Hrun s1. unfold bind.
    rewrite (run_command_run _ _ _ _ _ Hrun). fold s1.
    split; intros Hrc.
    + by apply Z.eqb_neq in Hrc as ->.
    + by subst rc.
  - intros a s pre argv cap rc post Hev Hrc.
    destruct (traced_emitted (main a) _ s (disciplined_main a)) as [_ Hd].
    rewrite Hev in Hd.
    assert (assertion_of (Call_run argv cap (inr rc))
            = Some (AssertionError ("Failed with exit code " +:+ pretty rc)))
      as Hbad.
    { simpl. by apply Z.eqb_neq in Hrc as ->. }
    destruct Hd as [Hclean|(pre' & c & e & Hsplit & Hpre & Hc & He)].
    { apply Forall_app in Hclean as [_ Hclean].
      apply Forall_cons in Hclean as [Hclean _]. congruence. }
    destruct post as [|x post _] using rev_ind.
    + apply (app_inj_tail pre pre') in Hsplit as [_ <-].
      split; [done|]. destruct (fst (main a s)); simpl in He; congruence.
    + rewrite app_comm_cons, app_assoc in Hsplit.
      apply app_inj_tail in Hsplit as [<- _].
      apply Forall_app in Hpre as [_ Hpre].
      apply Forall_cons in Hpre as [Hpre _]. congruence.
Qed.

(** *** The calls of a run that completes *)

Lemma os_call_inr {A} (op : W → result A * W) ev (s : state W) a s1 :
  os_call op ev s = (inr a, s1) →
  op (world s) = (inr a, world s1) ∧ calls s1 = calls s ++ [ev (inr a)].
Proof.
  unfold os_call. destruct (op (world s)) as [r w].
  intros [= -> <-]. done.
Qed.

Lemma run_command_inr argv cap (s : state W) u s1 :
  run_command argv cap s = (inr u, s1) →
  calls s1 = calls s ++ [Call_run argv cap (inr 0)].
Proof.
  destruct (subprocess_run argv cap (world s)) as [[e|rc] w] eqn:Hrun.
  - unfold run_command, logger_info, log, os_call, bind, modify. simpl.
    by rewrite Hrun.
  - rewrite (run_command_run _ _ _ _ _ Hrun).
    destruct (rc =? 0) eqn:Hrc; [|done].
    apply Z.eqb_eq in Hrc as ->. by intros [= _ <-].
Qed.

Lemma download_file_inr a u f (s : state W) x s1 :
  download_file a u f s = (inr x, s1) →
  ∃ found, calls s1 = calls s ++ fetch_calls a u f found.
Proof.
  destruct x.
  unfold download_file, fetch_calls, logger_info, log, os_query, os_call,
    bind, modify, ret. simpl.
  destruct (redownload a); simpl.
  - destruct (urlretrieve u f (world s)) as [[e|[]] w1]; [done|]. simpl.
    destruct (os_chmod f 493 w1) as [[e|[]] w2]; [done|].
    intros [= <-]. exists false. simpl. by rewrite <- ?app_assoc.
  - destruct (os_path_exists f (world s)); simpl.
    + destruct (os_chmod f 493 (world s)) as [[e|[]] w2]; [done|].
      intros [= <-]. exists true. simpl. by rewrite <- ?app_assoc.
    + destruct (urlretrieve u f (world s)) as [[e|[]] w1]; [done|]. simpl.
      destruct (os_chmod f 493 w1) as [[e|[]] w2]; [done|].
      intros [= <-]. exists false. simpl. by rewrite <- ?app_assoc.
Qed.

Lemma copy_lib_inr ef ex paths lib (s : state W) paths1 s1 :
  copy_lib ef ex paths lib s = (inr paths1, s1) →
  ∃ evs, calls s1 = calls s ++ evs ∧ forallb copy_call evs = true.
Proof.
  unfold copy_lib, logger_debug, log, os_query, os_call, bind, modify, ret.
  destruct (bool_decide (os_path_basename lib ∈ ef)); simpl.
  { intros [= _ <-]. exists []. by rewrite app_nil_r. }
  destruct (bool_decide (os_path_basename lib ∈ ex)); simpl.
  { intros [= _ <-]. exists []. by rewrite app_nil_r. }
  destruct (os_makedirs _ _) as [[e|[]] w1]; [done|]. simpl.
  destruct (shutil_copyfile _ _ _) as [[e|[]] w2]; [done|].
  intros [= _ <-]. eexists [_; _; _]. simpl. by rewrite <- ?app_assoc.
Qed.

Lemma copy_libs_inr ef ex libs paths (s : state W) paths1 s1 :
  for_ libs paths (copy_lib ef ex) s = (inr paths1, s1) →
  ∃ evs, calls s1 = calls s ++ evs ∧ forallb copy_call evs = true.
Proof.
  revert paths s. induction libs as [|lib libs IH]; intros paths s; simpl.
  - intros [= _ <-]. exists []. by rewrite app_nil_r.
  - intros (p & s0 & Hlib & Hrest)%bind_inr.
    apply copy_lib_inr in Hlib as (evs1 & Hc1 & Hf1).
    apply IH in Hrest as (evs2 & Hc2 & Hf2).
    exists (evs1 ++ evs2). rewrite Hc2, Hc1, app_assoc. split; [done|].
    by rewrite forallb_app, Hf1, Hf2.
Qed.

Lemma write_run_script_inr paths (s : state W) x s1 :
  write_run_script paths s = (inr x, s1) →
  ∃ content,
    calls s1 = calls s ++
      [Call_remove "squashfs-root/AppRun" (inr tt);
       Call_write "squashfs-root/AppRun" content (inr tt);
       Call_chmod "squashfs-root/AppRun" 493 (inr tt)].
Proof.
  destruct x.
  unfold write_run_script, logger_info, logger_debug, log, os_call, bind,
    modify. simpl.
  destruct (os_remove _ _) as [[e|[]] w1]; [done|]. simpl.
  destruct (write_text _ _ _) as [[e|[]] w2]; [done|]. simpl.
  destruct (os_chmod _ _ _) as [[e|[]] w3]; [done|].
  intros [= <-]. eexists. simpl. by rewrite <- ?app_assoc.
Qed.

Lemma copy_lib_paths ef ex paths lib (s : state W) paths1 s1 :
  copy_lib ef ex paths lib s = (inr paths1, s1) →
  paths1 = (if skipped ef ex lib then paths
            else paths ∪ {[os_path_dirname lib]}) ∧
  ∃ evs, calls s1 = calls s ++ evs ∧
         length (filter (λ c, is_copyfile c = true) evs)
         = if skipped ef ex lib then 0%nat else 1%nat.
Proof.
  unfold copy_lib, skipped, logger_debug, log, os_query, os_call, bind,
    modify, ret.
  destruct (bool_decide (os_path_basename lib ∈ ef)); simpl.
  { intros [= <- <-]. split; [done|]. exists []. by rewrite app_nil_r. }
  destruct (bool_decide (os_path_basename lib ∈ ex)); simpl.
  { intros [= <- <-]. split; [done|]. exists []. by rewrite app_nil_r. }
  destruct (os_makedirs _ _) as [[e|[]] w1]; [done|]. simpl.
  destruct (shutil_copyfile _ _ _) as [[e|[]] w2]; [done|].
  intros [= <- <-]. split; [done|]. eexists [_; _; _]. simpl.
  by rewrite <- !app_assoc.
Qed.

Lemma copy_libs_grow ef ex libs paths (s : state W) paths1 s1 :
  for_ libs paths (copy_lib ef ex) s = (inr paths1, s1) →
  paths1 = paths ∪ list_to_set
             (os_path_dirname <$> filter (λ l, skipped ef ex l = false) libs) ∧
  length (filter (λ c, is_copyfile c = true)
            (drop (length (calls s)) (calls s1)))
  = length (filter (λ l, skipped ef ex l = false) libs).
Proof.
  revert paths s. induction libs as [|lib libs IH]; intros paths s; simpl.
  - intros [= <- <-]. rewrite drop_all. simpl. split; [|done].
    by rewrite (right_id_L ∅ (∪)).
  - intros (p & s0 & Hlib & Hrest)%bind_inr.
    apply copy_lib_paths in Hlib as (-> & evs1 & Hc1 & Hn1).
    pose proof (copy_libs_inr _ _ _ _ _ _ _ Hrest) as (evs2 & Hc2 & _).
    apply IH in Hrest as (-> & Hn2).
    rewrite Hc2, drop_app_length in Hn2.
    rewrite Hc2, Hc1, <- app_assoc, drop_app_length, filter_app, length_app,
      Hn1, Hn2.
    destruct (skipped ef ex lib) eqn:Hskip.
    + rewrite filter_cons_False by congruence. done.
    + rewrite filter_cons_True by done. simpl. split; [|done].
      by rewrite (assoc_L (∪)).
Qed.

Lemma write_run_script_text paths (s : state W) s1 :
  write_run_script paths s = (inr tt, s1) →
  calls s1 = calls s ++
    [Call_remove "squashfs-root/AppRun" (inr tt);
     Call_write "squashfs-root/AppRun" (AppRun_text (list_of_set paths))
       (inr tt);
     Call_chmod "squashfs-root/AppRun" 493 (inr tt)].
Proof.
  unfold write_run_script, AppRun_text, logger_info, logger_debug, log,
    os_call, bind, modify. simpl.
  destruct (os_remove _ _) as [[e|[]] w1]; [done|]. simpl.
  destruct (write_text _ _ _) as [[e|[]] w2]; [done|]. simpl.
  destruct (os_chmod _ _ _) as [[e|[]] w3]; [done|].
  intros [= <-]. simpl. by rewrite <- ?app_assoc.
Qed.

Lemma copy_lib_calls ef ex paths lib (s : state W) paths1 s1 :
  copy_lib ef ex paths lib s = (inr paths1, s1) →
  ∃ found, calls s1 = calls s ++
             (if skipped ef ex lib then [] else lib_calls lib found).
Proof.
  unfold copy_lib, skipped, lib_calls, logger_debug, log, os_query, os_call,
    bind, modify, ret.
  destruct (bool_decide (os_path_basename lib ∈ ef)); simpl.
  { intros [= _ <-]. exists false. by rewrite app_nil_r. }
  destruct (bool_decide (os_path_basename lib ∈ ex)); simpl.
  { intros [= _ <-]. exists false. by rewrite app_nil_r. }
  destruct (os_makedirs _ _) as [[e|[]] w1]; [done|]. simpl.
  destruct (shutil_copyfile _ _ _) as [[e|[]] w2]; [done|].
  intros [= _ <-]. exists (os_path_exists lib (world s)). simpl.
  by rewrite <- ?app_assoc.
Qed.

Lemma copy_libs_calls ef ex libs paths (s : state W) paths1 s1 :
  for_ libs paths (copy_lib ef ex) s = (inr paths1, s1) →
  ∃ founds, length founds = length libs ∧
            calls s1 = calls s ++ libs_calls ef ex libs founds.
Proof.
  revert paths s. induction libs as [|lib libs IH]; intros paths s; simpl.
  - intros [= _ <-]. exists []. by rewrite app_nil_r.
  - intros (p & s0 & Hlib & Hrest)%bind_inr.
    apply copy_lib_calls in Hlib as (found & Hc1).
    apply IH in Hrest as (founds & Hlen & Hc2).
    exists (found :: founds). split; [by rewrite <- Hlen|].
    rewrite Hc2, Hc1. unfold libs_calls. simpl. by rewrite <- app_assoc.
Qed.

Lemma before_json_inr a (s : state W) x s1 :
  before_json a s = (inr x, s1) →
  ∃ found rm,
    calls s1 = calls s ++
      fetch_calls a python_url "python.appimage" found ++
      [Call_rmtree "squashfs-root" rm;
       Call_run extract_argv true (inr 0);
       Call_run pip_argv false (inr 0)].
Proof.
  destruct x. unfold before_json.
  intros ([] & s2 & (found & Hc2)%download_file_inr & Hrun)%bind_inr.
  apply bind_inr in Hrun as (r & s3 & Hrm & Hrun).
  apply bind_inr in Hrun as ([] & s4 & Hcatch & Hrun).
  apply bind_inr in Hrun as ([] & s5 & Hc5%run_command_inr & Hrun).
  apply bind_inr in Hrun as ([] & s6 & Hc6%run_command_inr & Hrun).
  unfold logger_info, log, modify in Hrun. injection Hrun as <-. simpl.
  assert (∃ rm, calls s4 = calls s2 ++ [Call_rmtree "squashfs-root" rm])
    as [rm Hc4].
  { unfold try_, os_call in Hrm. destruct (shutil_rmtree _ _) as [r' w].
    injection Hrm as <- <-.
    exists r'. destruct r' as [e|[]]; simpl in Hcatch.
    - destruct (is_FileNotFoundError e); [|done]. by injection Hcatch as <-.
    - by injection Hcatch as <-. }
  exists found, rm. rewrite Hc6, Hc5, Hc4, Hc2. by rewrite <- ?app_assoc.
Qed.

(** C6, amended. On a run that completes the calls come in this order:
    the base image is fetched (downloaded when [--redownload] is given or
    no [python.appimage] is present, otherwise the file present is kept),
    unpacked, the application is installed into it with pip, the document
    is read and the packages are installed unless [--skip-apt] is given,
    the libraries of 'libs' that are not skipped are copied, one after
    the other, each to its path prefixed with [squashfs-root], the
    launcher script for the directories of these libraries is written,
    the packaging tool is fetched, and the AppImage is packaged by the
    last call of the run. *)
Theorem build_steps_in_order a (s s' : state W) :
  main a s = (inr tt, s') →
  ∃ found1 rm data libs packages excludes walked founds copies content found2,
    data !! "libs" = Some libs ∧
    data !! "packages" = Some packages ∧
    data !! "excludes" = Some excludes ∧
    length founds = length libs ∧
    copies = libs_calls (concat ((λ t, snd t) <$> walked)) excludes libs
               founds ∧
    content = AppRun_text
                (list_of_set
                   (∅ ∪ list_to_set
                          (os_path_dirname <$>
                           filter (λ l, skipped
                                          (concat ((λ t, snd t) <$> walked))
                                          excludes l = false) libs))) ∧
    forallb copy_call copies = true ∧
    calls s' = calls s ++
      fetch_calls a python_url "python.appimage" found1 ++
      [Call_rmtree "squashfs-root" rm;
       Call_run extract_argv true (inr 0);
       Call_run pip_argv false (inr 0);
       Call_read_json (jsonfile a) (inr data)] ++
      (if skip_apt a then []
       else [Call_run (apt_argv packages) false (inr 0)]) ++
      [Call_walk "squashfs-root" walked] ++
      copies ++
      [Call_remove "squashfs-root/AppRun" (inr tt);
       Call_write "squashfs-root/AppRun" content (inr tt);
       Call_chmod "squashfs-root/AppRun" 493 (inr tt)] ++
      fetch_calls a appimagetool_url "appimagetool.appimage" found2 ++
      [Call_run (appimagetool_argv a) false (inr 0)].
Proof.
  unfold main.
  intros ([] & s1 & (found1 & rm & Hc1)%before_json_inr & Hrun)%bind_inr.
  apply bind_inr in Hrun as (data & s2 & [_ Hc2]%os_call_inr & Hrun).
  unfold after_json in Hrun.
  apply bind_inr in Hrun as (libs & s3 & Hlibs & Hrun).
  apply bind_inr in Hrun as (packages & s4 & Hpackages & Hrun).
  apply bind_inr in Hrun as (excludes & s5 & Hexcludes & Hrun).
  unfold getitem in Hlibs, Hpackages, Hexcludes.
  destruct (data !! "libs") as [lb|] eqn:Hlb; [|done].
  destruct (data !! "packages") as [pk|] eqn:Hpk; [|done].
  destruct (data !! "excludes") as [exc|] eqn:Hexc; [|done].
  injection Hlibs as <- <-. injection Hpackages as <- <-.
  injection Hexcludes as <- <-.
  apply bind_inr in Hrun as ([] & s6 & Hapt & Hrun).
  apply bind_inr in Hrun as ([] & s7 & Hlog & Hrun).
  unfold logger_info, log, modify in Hlog. injection Hlog as <-.
  apply bind_inr in Hrun as (walked & s8 & Hwalk & Hrun).
  unfold os_query in Hwalk. simpl in Hwalk. injection Hwalk as <- <-.
  apply bind_inr in Hrun as (paths & s9 & Hloop & Hrun).
  pose proof (copy_libs_inr _ _ _ _ _ _ _ Hloop) as (evs & Hevs & Hcopies).
  pose proof (copy_libs_calls _ _ _ _ _ _ _ Hloop) as (founds & Hlen & Hc9).
  rewrite Hc9 in Hevs. apply app_inv_head in Hevs. subst evs.
  apply copy_libs_grow in Hloop as [-> _].
  apply bind_inr in Hrun
    as ([] & s10 & Hc10%write_run_script_text & Hrun).
  apply bind_inr in Hrun
    as ([] & s11 & (found2 & Hc11)%download_file_inr & Hc12%run_command_inr).
  eexists found1, rm, data, lb, pk, exc,
    (os_walk "squashfs-root" (world s6)), founds, _, _, found2.
  do 3 (split; [done|]). split; [exact Hlen|].
  split; [reflexivity|]. split; [reflexivity|]. split; [exact Hcopies|].
  rewrite Hc12, Hc11, Hc10, Hc9. simpl.
  assert (calls s6 = calls s2 ++
            (if skip_apt a then []
             else [Call_run (apt_argv pk) false (inr 0)])) as ->.
  { destruct (skip_apt a); simpl in Hapt.
    - injection Hapt as <-. by rewrite app_nil_r.
    - by apply run_command_inr in Hapt. }
  rewrite Hc2, Hc1. by rewrite <- ?app_assoc.
Qed.

(** *** The keys of the document *)

(** C7, amended. The script reads the keys 'libs', 'packages' and
    'excludes' and no other: a document that lacks one of the three makes
    the run fail with [KeyError], before anything else is done with the
    document, and two documents that agree on the three are treated
    alike. *)
Theorem json_keys_read :
  (∀ a (data : json_doc) (s : state W) k,
     k ∈ keys_read → data !! k = None →
     ∃ k', k' ∈ keys_read ∧ data !! k' = None ∧
           after_json a data s = (inl (KeyError k'), s)) ∧
  (∀ a (s s1 : state W) data w k,
     before_json a s = (inr tt, s1) →
     read_json (jsonfile a) (world s1) = (inr data, w) →
     k ∈ keys_read → data !! k = None →
     is_ok (fst (main a s)) = false) ∧
  (∀ a (d1 d2 : json_doc) (s : state W),
     (∀ k, k ∈ keys_read → d1 !! k = d2 !! k) →
     after_json a d1 s = after_json a d2 s).
Proof.
  assert (∀ a (data : json_doc) (s : state W) k,
     k ∈ keys_read → data !! k = None →
     ∃ k', k' ∈ keys_read ∧ data !! k' = None ∧
           after_json a data s = (inl (KeyError k'), s)) as Hmissing.
  { intros a data s k Hk Hnone. unfold after_json, getitem, bind.
    destruct (data !! "libs") eqn:Hlibs; simpl;
      [|exists "libs"; by repeat split; [repeat constructor|..]].
    destruct (data !! "packages") eqn:Hpackages; simpl;
      [|exists "packages"; by repeat split; [repeat constructor|..]].
    destruct (data !! "excludes") eqn:Hexcludes; simpl;
      [|exists "excludes"; by repeat split; [repeat constructor|..]].
    unfold keys_read in Hk.
    repeat (apply elem_of_cons in Hk as [->|Hk]; [congruence|]).
    by apply elem_of_nil in Hk. }
  split; [exact Hmissing|]. split.
  - intros a s s1 data w k Hbefore Hread Hk Hnone.
    unfold main. rewrite (bind_run _ _ _ _ _ Hbefore).
    unfold bind, os_call. rewrite Hread.
    destruct (Hmissing a data
                (mkState w (calls s1 ++ [Call_read_json (jsonfile a) (inr data)])
                   (logs s1)) k Hk Hnone) as (k' & _ & _ & ->).
    done.
  - intros a d1 d2 s Hagree. unfold after_json, getitem.
    by rewrite (Hagree "libs"), (Hagree "packages"), (Hagree "excludes")
      by repeat constructor.
Qed.

(** *** The loop over the libraries *)

(** C10. An entry whose basename is among the files found under
    [squashfs-root] or among the excludes is skipped: no call is made and
    the world stays as it is.  For any other entry the file to copy is the
    entry itself when it exists and the entry without its extension when
    it does not; the directory of the destination, which is the file name
    prefixed with [squashfs-root], is created, and the file is copied to
    the destination.  The loop runs this body on every entry it reaches;
    in the script it runs over the 'libs' of the document, with the files
    that [os.walk] finds under [squashfs-root] before the first copy and
    with the 'excludes' of the document. *)
Theorem copy_lib_entry ef ex paths lib (s : state W) :
  (os_path_basename lib ∈ ef ∨ os_path_basename lib ∈ ex →
   fst (copy_lib ef ex paths lib s) = inr paths ∧
   world (snd (copy_lib ef ex paths lib s)) = world s ∧
   calls (snd (copy_lib ef ex paths lib s)) = calls s) ∧
  (os_path_basename lib ∉ ef → os_path_basename lib ∉ ex →
   let found := os_path_exists lib (world s) in
   let filename := if found then lib else fst (os_path_splitext lib) in
   let dest := "squashfs-root" +:+ filename in
   ∀ made w1, os_makedirs (os_path_dirname dest) (world s) = (made, w1) →
     match made with
     | inl e =>
         fst (copy_lib ef ex paths lib s) = inl e ∧
         calls (snd (copy_lib ef ex paths lib s)) = calls s ++
           [Call_exists lib found;
            Call_makedirs (os_path_dirname dest) (inl e)]
     | inr _ =>
         ∀ copied w2, shutil_copyfile filename dest w1 = (copied, w2) →
           fst (copy_lib ef ex paths lib s)
           = match copied with
             | inl e => inl e
             | inr _ => inr (paths ∪ {[os_path_dirname lib]})
             end ∧
           world (snd (copy_lib ef ex paths lib s)) = w2 ∧
           calls (snd (copy_lib ef ex paths lib s)) = calls s ++
             [Call_exists lib found;
              Call_makedirs (os_path_dirname dest) (inr tt);
              Call_copyfile filename dest copied]
     end) ∧
  (∀ l1 l2 paths0 (s0 : state W),
     for_ l1 paths0 (copy_lib ef ex) s0 = (inr paths, s) →
     for_ (l1 ++ lib :: l2) paths0 (copy_lib ef ex) s0
     = bind (copy_lib ef ex paths lib)
         (λ paths', for_ l2 paths' (copy_lib ef ex)) s) ∧
  (∀ a (data : json_doc) libs packages excludes,
     data !! "libs" = Some libs →
     data !! "packages" = Some packages →
     data !! "excludes" = Some excludes →
     after_json a data =
       ((if negb (skip_apt a) then run_command (apt_argv packages) false
         else ret tt) ;;
        logger_info "Copying .so files to appimage..." ;;
        let* walked := os_query (os_walk "squashfs-root")
                                (Call_walk "squashfs-root") in
        let* paths' := for_ libs ∅
                         (copy_lib (concat ((λ t, snd t) <$> walked))
                            excludes) in
        write_run_script paths' ;;
        download_file a appimagetool_url "appimagetool.appimage" ;;
        run_command (appimagetool_argv a) false)).
Proof.
  split; [|split; [|split]]; cycle 3.
  { intros a data libs packages excludes Hlibs Hpackages Hexcludes.
    unfold after_json, getitem. rewrite Hlibs, Hpackages, Hexcludes.
    reflexivity. }
  - intros Hskip.
    unfold copy_lib, logger_debug, log, bind, modify, ret.
    destruct (bool_decide_reflect (os_path_basename lib ∈ ef)); [done|].
    destruct (bool_decide_reflect (os_path_basename lib ∈ ex)); [done|].
    by destruct Hskip.
  - intros Hef Hex found filename dest made w1 Hmade.
    unfold copy_lib, logger_debug, log, os_query, os_call, bind, modify, ret.
    rewrite (bool_decide_eq_false_2 _ Hef), (bool_decide_eq_false_2 _ Hex).
    simpl. fold found. fold filename. fold dest. rewrite Hmade.
    destruct made as [e|[]]; simpl.
    + split; [done|]. by rewrite <- ?app_assoc.
    + intros copied w2 ->. destruct copied as [e|[]]; simpl;
        by rewrite <- ?app_assoc.
  - intros l1 l2 paths0 s0. apply for_app.
Qed.

End build_spec.

(** ** The build script on the example machine *)

Lemma run_command_exit_code_witness :
  build_appimage.emitted (build_appimage.main example_args)
    (start (example_world example_disk example_doc failing_pip))
  = (build_appimage.fetch_calls example_args build_appimage.python_url
       "python.appimage" false ++
     [build_appimage.Call_rmtree "squashfs-root"
        (inl (FileNotFoundError "squashfs-root"));
      build_appimage.Call_run build_appimage.extract_argv true (inr 0)]) ++
    build_appimage.Call_run build_appimage.pip_argv false (inr 1) :: [] ∧
  fst (build_appimage.main example_args
         (start (example_world example_disk example_doc failing_pip)))
  = inl (AssertionError "Failed with exit code 1").
Proof.
  assert (build_appimage.emitted (build_appimage.main example_args)
            (start (example_world example_disk example_doc failing_pip))
          = (build_appimage.fetch_calls example_args build_appimage.python_url
               "python.appimage" false ++
             [build_appimage.Call_rmtree "squashfs-root"
                (inl (FileNotFoundError "squashfs-root"));
              build_appimage.Call_run build_appimage.extract_argv true (inr 0)]) ++
            build_appimage.Call_run build_appimage.pip_argv false (inr 1) :: [])
    as Hcalls by (vm_compute; reflexivity).
  split; [exact Hcalls|].
  apply (proj2 run_command_exit_code example_args _ _ _ _ 1 [] Hcalls).
  discriminate.
Defined.

Lemma build_steps_in_order_witness :
  ∃ s' evs,
    build_appimage.main example_args
      (start (example_world example_disk example_doc ∅)) = (inr tt, s') ∧
    build_appimage.calls s' =
      evs ++ [build_appimage.Call_run
                ["./appimagetool.appimage"; "squashfs-root";
                 "BeeRef-0.3.3.appimage"; "--no-appstream"] false (inr 0)].
Proof.
  assert (build_appimage.main example_args
            (start (example_world example_disk example_doc ∅))
          = (inr tt,
             snd (build_appimage.main example_args
                    (start (example_world example_disk example_doc ∅)))))
    as Hrun by (vm_compute; reflexivity).
  destruct (build_steps_in_order _ _ _ Hrun)
    as (found1 & rm & data & libs & packages & excludes & walked & founds
        & copies & content & found2 & _ & _ & _ & _ & _ & _ & _ & Hcalls).
  eexists _, _. split; [exact Hrun|].
  rewrite Hcalls, !app_assoc. reflexivity.
Defined.

(** C6 as stated fails: with [python.appimage] left by an earlier build,
    no [--redownload] and a document all of whose libraries are skipped,
    the run completes without downloading the base image and without
    copying a library. *)
Lemma build_keeps_cached_image :
  build_appimage.redownload example_args = false ∧
  doc_all_skipped !! "libs"
  = Some ["/usr/lib/x86_64-linux-gnu/libz.so.1";
          "/usr/lib/x86_64-linux-gnu/libc.so.6"] ∧
  fst (build_appimage.main example_args
         (start (example_world (<["python.appimage" := "cached"]> example_disk)
                   doc_all_skipped ∅))) = inr tt ∧
  build_appimage.downloaded "python.appimage"
    (build_appimage.calls
       (snd (build_appimage.main example_args
               (start (example_world
                         (<["python.appimage" := "cached"]> example_disk)
                         doc_all_skipped ∅))))) = false ∧
  existsb is_copyfile
    (build_appimage.calls
       (snd (build_appimage.main example_args
               (start (example_world
                         (<["python.appimage" := "cached"]> example_disk)
                         doc_all_skipped ∅))))) = false ∧
  take 2 (build_appimage.calls
            (snd (build_appimage.main example_args
                    (start (example_world
                              (<["python.appimage" := "cached"]> example_disk)
                              doc_all_skipped ∅)))))
  = [build_appimage.Call_exists "python.appimage" true;
     build_appimage.Call_chmod "python.appimage" 493 (inr tt)].
Proof. repeat split; vm_compute; reflexivity. Qed.

Lemma json_keys_read_witness :
  is_ok (fst (build_appimage.main example_args
                (start (example_world example_disk doc_without_excludes ∅))))
  = false.
Proof.
  apply (proj1 (proj2 json_keys_read) example_args
           (start (example_world example_disk doc_without_excludes ∅))
           (snd (build_appimage.before_json example_args
                   (start (example_world example_disk doc_without_excludes ∅))))
           doc_without_excludes
           (build_appimage.world
              (snd (build_appimage.before_json example_args
                      (start (example_world example_disk
                                doc_without_excludes ∅)))))
           "excludes").
  - vm_compute; reflexivity.
  - vm_compute; reflexivity.
  - apply (bool_decide_unpack _). vm_compute. exact I.
  - vm_compute; reflexivity.
Defined.

(** C7 as stated fails: a document with the keys 'libs' and 'packages' and
    no other makes the run fail, because the script also reads
    'excludes'. *)
Lemma build_needs_excludes :
  dom doc_without_excludes = {["libs"; "packages"]} ∧
  fst (build_appimage.main example_args
         (start (example_world example_disk doc_without_excludes ∅)))
  = inl (KeyError "excludes").
Proof.
  split; [|vm_compute; reflexivity].
  apply (bool_decide_unpack _). vm_compute. exact I.
Qed.

Lemma copy_lib_entry_witness :
  (os_path_basename "/usr/lib/x86_64-linux-gnu/libGL.so.1"
     ∉ ["pip"; "libz.so.1"; "AppRun"]) ∧
  (os_path_basename "/usr/lib/x86_64-linux-gnu/libGL.so.1" ∉ ["libc.so.6"]) ∧
  build_appimage.calls
    (snd (build_appimage.copy_lib ["pip"; "libz.so.1"; "AppRun"] ["libc.so.6"]
            ∅ "/usr/lib/x86_64-linux-gnu/libGL.so.1"
            (start (example_world example_disk example_doc ∅))))
  = [build_appimage.Call_exists "/usr/lib/x86_64-linux-gnu/libGL.so.1" false;
     build_appimage.Call_makedirs "squashfs-root/usr/lib/x86_64-linux-gnu"
       (inr tt);
     build_appimage.Call_copyfile "/usr/lib/x86_64-linux-gnu/libGL.so"
       "squashfs-root/usr/lib/x86_64-linux-gnu/libGL.so" (inr tt)].
Proof.
  assert (os_path_basename "/usr/lib/x86_64-linux-gnu/libGL.so.1"
            ∉ ["pip"; "libz.so.1"; "AppRun"]) as Hef.
  { apply (bool_decide_unpack _). vm_compute. exact I. }
  assert (os_path_basename "/usr/lib/x86_64-linux-gnu/libGL.so.1"
            ∉ ["libc.so.6"]) as Hex.
  { apply (bool_decide_unpack _). vm_compute. exact I. }
  split; [exact Hef|]. split; [exact Hex|].
  pose proof (proj1 (proj2 (copy_lib_entry ["pip"; "libz.so.1"; "AppRun"]
                              ["libc.so.6"] ∅
                              "/usr/lib/x86_64-linux-gnu/libGL.so.1"
                              (start (example_world example_disk example_doc ∅))))
                Hef Hex (inr tt)
                (example_world example_disk example_doc ∅) eq_refl) as Hmade.
  cbv beta iota zeta in Hmade.
  edestruct Hmade as (_ & _ & Hcalls); [vm_compute; reflexivity|].
  rewrite Hcalls. vm_compute. reflexivity.
Defined.

(** * Further properties of the image helper *)

Section image_more.
Context `{QtGui} `{ImageLibs} `{OsPath}.

Import image.

Ltac run_image_steps :=
  unfold load_image, exif_rotated_image, new_QImage, load_exif, download,
    with_TemporaryDirectory, write_file, logger_exception, logger_debug,
    log, emit, bind, try_, ret, raise, modify, gets;
  simpl.

(** The outcome of [exif_rotated_image], case by case. *)
Lemma exif_rotated_image_outcome path s :
  ∃ img evs lg,
    exif_rotated_image path s =
      (inr img,
       mkState (files s) (tmp_count s) (calls s ++ Call_QImage path :: evs)
         (logs s ++ lg)) ∧
    (evs = [] ∧ lg = [] ∧ isNull (QImage_new path (files s)) = true ∨
     evs = [Call_piexif_load path] ∧
     isNull (QImage_new path (files s)) = false ∧
     match piexif_load path (files s) with
     | inl e =>
         img = QImage_new path (files s) ∧
         lg = [LogRecord ERROR
                 ("Exif parser failed on image: " +:+ format_path path)
                 (Some e)]
     | inr _ => lg = []
     end).
Proof.
  run_image_steps.
  destruct (isNull _) eqn:Hnull; simpl.
  { eexists _, [], []. rewrite app_nil_r. split; [done|]. by left. }
  destruct (piexif_load _ _) as [e|d]; simpl.
  { eexists _, [_], [_]. rewrite <- app_assoc. split; [done|]. by right. }
  assert (∀ img : QImage, ∃ img' evs lg,
    (inr img : result QImage,
     mkState (files s) (tmp_count s)
       ((calls s ++ [Call_QImage path]) ++ [Call_piexif_load path]) (logs s)) =
    (inr img', mkState (files s) (tmp_count s)
       (calls s ++ Call_QImage path :: evs) (logs s ++ lg)) ∧
    (evs = [] ∧ lg = [] ∧ false = true ∨
     evs = [Call_piexif_load path] ∧ false = false ∧ lg = [])) as Hret.
  { intros img. eexists img, [_], []. rewrite <- app_assoc, app_nil_r.
    split; [done|]. by right. }
  destruct (ifd_0th d !! ImageIFD_Orientation) as [o|]; [|apply Hret].
  repeat (destruct (py_eq_int o _); [apply Hret|]). apply Hret.
Qed.

(** X1. [exif_rotated_image] returns an image on every path and in every
    state, whatever the decoder and the EXIF parser do: it calls the
    [QImage] constructor, then at most the parser, logs a record exactly
    when the parser raised, and leaves the files alone. *)
Theorem exif_rotated_image_never_raises path s :
  ∃ img evs lg,
    exif_rotated_image path s =
      (inr img,
       mkState (files s) (tmp_count s) (calls s ++ Call_QImage path :: evs)
         (logs s ++ lg)) ∧
    (evs = [] ∧ lg = [] ∧ isNull (QImage_new path (files s)) = true ∨
     evs = [Call_piexif_load path] ∧
     isNull (QImage_new path (files s)) = false ∧
     match piexif_load path (files s) with
     | inl e =>
         img = QImage_new path (files s) ∧
         lg = [LogRecord ERROR
                 ("Exif parser failed on image: " +:+ format_path path)
                 (Some e)]
     | inr _ => lg = []
     end).
Proof. apply exif_rotated_image_outcome. Qed.

(** X2. An image that decodes and whose EXIF block parses is returned as
    decoded, with nothing logged, when the block has no Orientation tag,
    when the tag holds a tuple or bytes, and when it holds a number, an
    integer or a float, that is equal to none of 2, ..., 8. *)
Theorem exif_rotated_image_other_orientation path s exif :
  isNull (QImage_new path (files s)) = false →
  piexif_load path (files s) = inr exif →
  match ifd_0th exif !! ImageIFD_Orientation with
  | Some (ExifInt v) => v < 2 ∨ 8 < v
  | Some (ExifFloat x) => ∀ k, 2 ≤ k ≤ 8 → float_eq_int x k = false
  | Some (ExifTuple _) | Some (ExifBytes _) | None => True
  end →
  exif_rotated_image path s =
    (inr (QImage_new path (files s)),
     mkState (files s) (tmp_count s)
       (calls s ++ [Call_QImage path; Call_piexif_load path]) (logs s)).
Proof.
  intros Hnull Hexif Htag. run_image_steps. rewrite Hnull. simpl.
  rewrite Hexif. simpl. rewrite <- app_assoc. simpl.
  destruct (ifd_0th exif !! ImageIFD_Orientation) as [[v|x|vs|b]|]; try done.
  - unfold py_eq_int.
    repeat match goal with
           | |- context [v =? ?k] =>
               destruct (Z.eqb_spec v k); [exfalso; lia|]
           end.
    done.
  - unfold py_eq_int. by rewrite !Htag by lia.
Qed.

(** How [load_image] runs on an argument that stands for a local path. *)
Lemma load_image_local_run path p s :
  local_path path = Some p →
  ∃ img s',
    load_image path s = (inr (img, os_path_normpath p), s') ∧
    files s' = files s ∧ tmp_count s' = tmp_count s ∧
    Forall (λ c, c = Call_QImage (Some (os_path_normpath p)) ∨
                 c = Call_piexif_load (Some (os_path_normpath p)))
      (drop (length (calls s)) (calls s')).
Proof.
  intros Hlocal.
  destruct (exif_rotated_image_outcome (Some (os_path_normpath p)) s)
    as (img & evs & lg & Hrun & Hevs).
  assert (load_image path s =
            bind (exif_rotated_image (Some (os_path_normpath p)))
              (λ img, ret (img, os_path_normpath p)) s) as ->.
  { destruct path as [q|u]; simpl in Hlocal.
    - by injection Hlocal as ->.
    - unfold load_image. destruct (isLocalFile u); [|done].
      by injection Hlocal as ->. }
  unfold bind. rewrite Hrun. eexists img, _. split; [done|]. simpl.
  split; [done|]. split; [done|]. rewrite drop_app_length.
  destruct Hevs as [(-> & _)|(-> & _)].
  - constructor; [by left|constructor].
  - constructor; [by left|]. constructor; [by right|constructor].
Qed.

(** X3. For a string and for a URL of a local file, [load_image] returns
    without raising, and all it does is construct the [QImage] and at most
    parse the EXIF block, both on the normalised path: it does not open a
    URL, create a temporary directory or write a file, and the files are
    as before. *)
Theorem load_image_local_only path p s :
  local_path path = Some p →
  ∃ img s',
    load_image path s = (inr (img, os_path_normpath p), s') ∧
    files s' = files s ∧ tmp_count s' = tmp_count s ∧
    Forall (λ c, c = Call_QImage (Some (os_path_normpath p)) ∨
                 c = Call_piexif_load (Some (os_path_normpath p)))
      (drop (length (calls s)) (calls s')).
Proof. apply load_image_local_run. Qed.

(** How [load_image] runs on a URL that is not a local file and whose
    download succeeds, with the state it leaves written out. *)
Lemma load_image_download_run u s imgdata :
  isLocalFile u = false →
  urlopen_read (url u) = inr imgdata →
  let tmp := tempfile_name (tmp_count s) in
  let fname := os_path_join tmp "img" in
  ∃ img evs lg,
    load_image (Url u) s =
      (inr (img, url u),
       mkState (filter (λ kv, below tmp kv.1 = false)
                  (<[fname := imgdata]> (files s)))
         (S (tmp_count s))
         (calls s ++ [Call_QImage None; Call_urlopen (url u);
                      Call_TemporaryDirectory tmp; Call_write fname imgdata;
                      Call_QImage (Some fname)] ++ evs ++ [Call_cleanup tmp])
         (logs s ++ LogRecord DEBUG ("Temporarily saved in: " +:+ fname) None
                 :: lg)) ∧
    (evs = [] ∨ evs = [Call_piexif_load (Some fname)]).
Proof.
  intros Hlocal Hdl tmp fname.
  set (saved :=
    mkState (<[fname := imgdata]> (files s)) (S (tmp_count s))
      (calls s ++ [Call_QImage None; Call_urlopen (url u);
                   Call_TemporaryDirectory tmp; Call_write fname imgdata])
      (logs s ++ [LogRecord DEBUG ("Temporarily saved in: " +:+ fname) None])).
  destruct (exif_rotated_image_outcome (Some fname) saved)
    as (img & evs & lg & Hr & Hevs).
  exists img, evs, lg. split.
  - unfold load_image. rewrite Hlocal. unfold bind at 1.
    rewrite (exif_rotated_image_null None s (QImage_new_None_isNull _)).
    unfold download, with_TemporaryDirectory, write_file, logger_debug, log,
      emit, bind, try_, ret, raise, modify, gets. simpl.
    rewrite Hdl. simpl. fold tmp. fold fname.
    replace (mkState (<[fname:=imgdata]> (files s)) (S (tmp_count s))
               ((((calls s ++ [Call_QImage None]) ++ [Call_urlopen (url u)]) ++
                 [Call_TemporaryDirectory tmp]) ++ [Call_write fname imgdata])
               (logs s ++ [LogRecord DEBUG ("Temporarily saved in: " +:+ fname)
                             None]))
      with saved by (unfold saved; by rewrite <- !app_assoc).
    rewrite Hr. simpl. unfold saved. simpl.
    by rewrite <- !app_assoc.
  - destruct Hevs as [(-> & _)|(-> & _)]; auto.
Qed.

(** X4. A download through a fresh temporary directory leaves no trace in
    the files: when the file [img] lies in the directory and nothing was
    in the directory before, the files after [load_image] are the files
    before it. *)
Theorem load_image_download_restores_files u s imgdata :
  isLocalFile u = false →
  urlopen_read (url u) = inr imgdata →
  below (tempfile_name (tmp_count s))
    (os_path_join (tempfile_name (tmp_count s)) "img") = true →
  (∀ p, below (tempfile_name (tmp_count s)) p = true → files s !! p = None) →
  files (snd (load_image (Url u) s)) = files s ∧
  tmp_count (snd (load_image (Url u) s)) = S (tmp_count s).
Proof.
  intros Hlocal Hdl Hin Hfresh.
  destruct (load_image_download_run u s imgdata Hlocal Hdl)
    as (img & evs & lg & -> & _).
  simpl. split; [|done].
  rewrite map_filter_insert_not'.
  - apply map_filter_id. intros p x Hp. simpl.
    destruct (below _ p) eqn:Hbelow; [|done].
    apply Hfresh in Hbelow. congruence.
  - simpl. by rewrite Hin.
  - intros y Hy. by rewrite Hfresh in Hy.
Qed.

(** X14. An Orientation tag that holds a float is treated by its value:
    a float equal to the integer [k] gives what the integer [k] gives,
    the transform of [k] for 2, ..., 8 and the decoded image for any
    other [k]. *)
Theorem exif_rotated_image_float_orientation path s exif x k :
  isNull (QImage_new path (files s)) = false →
  piexif_load path (files s) = inr exif →
  ifd_0th exif !! ImageIFD_Orientation = Some (ExifFloat x) →
  float_eq_int x k = true →
  fst (exif_rotated_image path s) =
    let img := QImage_new path (files s) in
    match k with
    | 2 => inr (mirrored img true false)
    | 3 => inr (transformed img (rotate QTransform_new 180))
    | 4 => inr (mirrored img false true)
    | 5 => inr (mirrored (transformed img (rotate QTransform_new 90))
                  true false)
    | 6 => inr (transformed img (rotate QTransform_new 90))
    | 7 => inr (mirrored (transformed img (rotate QTransform_new 270))
                  true false)
    | 8 => inr (transformed img (rotate QTransform_new 270))
    | _ => inr img
    end.
Proof.
  intros Hnull Hexif Htag Hk.
  rewrite (exif_rotated_image_parsed _ _ _ Hnull Hexif), Htag.
  unfold py_eq_int. rewrite !(float_eq_int_unique x k _ Hk). simpl.
  destruct (Z.eqb_spec 2 k) as [<-|?]; [done|].
  destruct (Z.eqb_spec 3 k) as [<-|?]; [done|].
  destruct (Z.eqb_spec 4 k) as [<-|?]; [done|].
  destruct (Z.eqb_spec 5 k) as [<-|?]; [done|].
  destruct (Z.eqb_spec 6 k) as [<-|?]; [done|].
  destruct (Z.eqb_spec 7 k) as [<-|?]; [done|].
  destruct (Z.eqb_spec 8 k) as [<-|?]; [done|].
  destruct k as [|p|p]; [done| |done].
  do 4 (try (destruct p as [p|p|]; try done; try lia)).
Qed.

End image_more.

Lemma exif_rotated_image_float_orientation_witness :
  fst (image.exif_rotated_image (H0 := float_tag_ImageLibs)
         (Some "/home/bee/pic.img") (example_state x01))
  = inr [[x0d; x0a]; [x0e; x0b]; [x0f; x0c]].
Proof.
  etrans.
  - apply (exif_rotated_image_float_orientation (H0 := float_tag_ImageLibs)
             (Some "/home/bee/pic.img") (example_state x01)
             (mkExif {[ImageIFD_Orientation
                         := ExifFloat (SpecFloat.S754_finite false 3 1)]})
             (SpecFloat.S754_finite false 3 1) 6);
      vm_compute; reflexivity.
  - vm_compute; reflexivity.
Defined.

Lemma exif_rotated_image_other_orientation_witness :
  image.exif_rotated_image (Some "/home/bee/pic.img") (example_state x09) =
    (inr [[x0a; x0b; x0c]; [x0d; x0e; x0f]],
     image.mkState (example_files x09) 0
       [image.Call_QImage (Some "/home/bee/pic.img");
        image.Call_piexif_load (Some "/home/bee/pic.img")] []).
Proof.
  etrans.
  - apply (exif_rotated_image_other_orientation (Some "/home/bee/pic.img")
             (example_state x09)
             (mkExif {[ImageIFD_Orientation := ExifInt 9]}));
      [vm_compute; reflexivity ..|].
    vm_compute. right. reflexivity.
  - vm_compute; reflexivity.
Defined.

Lemma load_image_local_only_witness :
  ∃ img s',
    image.load_image (image.Str "/home/bee//pic.img") (example_state x03)
    = (inr (img, "/home/bee/pic.img"), s') ∧
    image.files s' = example_files x03.
Proof.
  destruct (load_image_local_only (image.Str "/home/bee//pic.img")
              "/home/bee//pic.img" (example_state x03) eq_refl)
    as (img & s' & Hrun & Hfiles & _).
  exists img, s'. split; [exact Hrun|exact Hfiles].
Defined.

(** Nothing of the example files lies in the first temporary directory. *)
Lemma lookup_example_files_tmp o p :
  image.below "/tmp/tmp0" p = true → example_files o !! p = None.
Proof.
  intros Hp. unfold example_files.
  destruct (decide (p = "/home/bee/pic.img")) as [->|Hpic];
    [vm_compute in Hp; discriminate|].
  destruct (decide (p = "/home/bee/notes.txt")) as [->|Hnotes];
    [vm_compute in Hp; discriminate|].
  rewrite lookup_insert_ne by done.
  by rewrite lookup_singleton_ne.
Qed.

Lemma load_image_download_restores_files_witness :
  image.files
    (snd (image.load_image (image.Url (bee_url "https://example.org/bee.img"))
            (example_state x03)))
  = example_files x03.
Proof.
  apply (load_image_download_restores_files
           (bee_url "https://example.org/bee.img") (example_state x03)
           (picture x06)).
  - vm_compute; reflexivity.
  - vm_compute; reflexivity.
  - vm_compute; reflexivity.
  - intros p Hp. apply (lookup_example_files_tmp x03 p Hp).
Defined.


(** * Further properties of the build script *)

Section build_more.
Context {W : Type} `{BuildOS W} `{OsPath}.

Import build_appimage.

(** *** Every failure ends the run *)

Lemma fail_stop_app err evs1 evs2 :
  Forall (λ c, raised_by c = None) evs1 →
  fail_stop err evs2 → fail_stop err (evs1 ++ evs2).
Proof.
  intros Hq [[-> Hq2]|(pre & c & e & -> & Hpre & Hc & ->)].
  - left. split; [done|]. by apply Forall_app.
  - right. exists (evs1 ++ pre), c, e. rewrite app_assoc.
    repeat split; try done. by apply Forall_app.
Qed.

Lemma stops_ret {A} (a : A) : stops (ret a : M (state W) A).
Proof.
  intros s. exists []. rewrite app_nil_r. split; [done|]. left. by split.
Qed.

Lemma stops_log lvl msg : stops (log (W:=W) lvl msg).
Proof.
  intros s. exists []. rewrite app_nil_r. split; [done|]. left. by split.
Qed.

Lemma stops_os_query {A} (q : W → A) ev :
  (∀ a, raised_by (ev a) = None) → stops (os_query q ev).
Proof.
  intros Hev s. exists [ev (q (world s))]. split; [done|].
  left. split; [done|]. by constructor.
Qed.

Lemma stops_os_call {A} (op : W → result A * W) ev :
  (∀ e, raised_by (ev (inl e)) = Some e) →
  (∀ a, raised_by (ev (inr a)) = None) →
  stops (os_call op ev).
Proof.
  intros Herr Hok s. unfold os_call. destruct (op (world s)) as [[e|a] w].
  - exists [ev (inl e)]. split; [done|]. right. by exists [], (ev (inl e)), e.
  - exists [ev (inr a)]. split; [done|]. left. split; [done|]. by constructor.
Qed.

Lemma stops_bind {A B} (m : M (state W) A) (k : A → M (state W) B) :
  stops m → (∀ a, stops (k a)) → stops (bind m k).
Proof.
  intros Hm Hk s. unfold bind.
  destruct (Hm s) as (evs1 & Hc1 & Hd1).
  destruct (m s) as [[e|a] s1]; simpl in *; [by exists evs1|].
  destruct Hd1 as [[_ Hq]|(? & ? & ? & _ & _ & _ & ?)]; [|done].
  destruct (Hk a s1) as (evs2 & Hc2 & Hd2).
  exists (evs1 ++ evs2). split; [by rewrite Hc2, Hc1, app_assoc|].
  by apply fail_stop_app.
Qed.

Lemma stops_run_command argv cap : stops (run_command argv cap).
Proof.
  intros s.
  destruct (subprocess_run argv cap (world s)) as [[e|rc] w] eqn:Hrun.
  - exists [Call_run argv cap (inl e)].
    unfold run_command, logger_info, log, os_call, bind, modify. simpl.
    rewrite Hrun. simpl. split; [done|].
    right. by exists [], (Call_run argv cap (inl e)), e.
  - rewrite (run_command_run _ _ _ _ _ Hrun). simpl.
    exists [Call_run argv cap (inr rc)]. split; [done|].
    destruct (rc =? 0) eqn:Hrc.
    + left. split; [done|]. constructor; [|done]. simpl. by rewrite Hrc.
    + right. eexists [], (Call_run argv cap (inr rc)), _.
      repeat split; try done; simpl; by rewrite Hrc.
Qed.

Lemma stops_for {A B} (body : A → B → M (state W) A) l acc :
  (∀ acc x, stops (body acc x)) → stops (for_ l acc body).
Proof.
  intros Hbody. revert acc. induction l as [|x l IH]; intros acc; simpl.
  - apply stops_ret.
  - apply stops_bind; [apply Hbody|]. intros acc'. apply IH.
Qed.

(** The handler around [shutil.rmtree], followed by the rest. *)
Lemma stops_rmtree {A} (k : unit → M (state W) A) :
  (∀ u, stops (k u)) →
  stops (bind (try_ (os_call (shutil_rmtree "squashfs-root")
                             (Call_rmtree "squashfs-root")))
           (λ r, bind match r with
                      | inl e => if is_FileNotFoundError e then ret tt
                                 else raise e
                      | inr _ => ret tt
                      end k)).
Proof.
  intros Hk s. unfold bind, try_, os_call.
  destruct (shutil_rmtree "squashfs-root" (world s)) as [r w]. simpl.
  set (s1 := mkState w (calls s ++ [Call_rmtree "squashfs-root" r]) (logs s)).
  assert (raised_by (Call_rmtree "squashfs-root" r) = None →
          ∃ evs, calls (snd (k tt s1)) = calls s ++ evs ∧
                 fail_stop (error_of (fst (k tt s1))) evs) as Hquiet.
  { intros Hr. destruct (Hk tt s1) as (evs2 & Hc2 & Hd2).
    exists ([Call_rmtree "squashfs-root" r] ++ evs2).
    split; [by rewrite Hc2, app_assoc|].
    apply fail_stop_app; [by constructor|done]. }
  destruct r as [e|[]]; simpl.
  - destruct (is_FileNotFoundError e) eqn:Hfnf; simpl.
    + apply Hquiet. simpl. by rewrite Hfnf.
    + exists [Call_rmtree "squashfs-root" (inl e)]. split; [done|].
      right. exists [], (Call_rmtree "squashfs-root" (inl e)), e.
      repeat split; try done. simpl. by rewrite Hfnf.
  - by apply Hquiet.
Qed.

Create HintDb stops discriminated.
#[local] Hint Resolve stops_ret stops_log stops_run_command : stops.

Ltac stop_steps :=
  repeat first
    [ solve [auto with stops]
    | apply stops_os_query; done
    | apply stops_os_call; done
    | apply stops_for; intros ??
    | apply stops_rmtree; intros ?
    | match goal with
      | |- stops (if ?b then _ else _) => destruct b
      end
    | apply stops_bind; [|intros ?] ].

Lemma stops_download_file a u f : stops (download_file a u f).
Proof. unfold download_file, logger_info. stop_steps. Qed.

Lemma stops_copy_lib ef ex paths lib : stops (copy_lib ef ex paths lib).
Proof. unfold copy_lib, logger_debug. stop_steps. Qed.

Lemma stops_write_run_script paths : stops (write_run_script paths).
Proof. unfold write_run_script, logger_info, logger_debug. stop_steps. Qed.

#[local] Hint Resolve stops_download_file stops_copy_lib
  stops_write_run_script : stops.

Lemma stops_before_json a : stops (before_json a).
Proof. unfold before_json, logger_info. stop_steps. Qed.

(** The script from line 94 on stops at the first failure, or raises
    [KeyError] for a key the document lacks before it makes a call. *)
Lemma after_json_stops a (data : json_doc) :
  traced (after_json (W:=W) a data)
    (λ r evs, fail_stop (error_of r) evs ∨
              evs = [] ∧ ∃ k, k ∈ keys_read ∧ data !! k = None ∧
                              r = inl (KeyError k)).
Proof.
  intros s. unfold after_json.
  destruct (data !! "libs") as [libs|] eqn:Hlibs; cycle 1.
  { exists []. rewrite app_nil_r. unfold getitem, bind. rewrite Hlibs. simpl.
    split; [done|]. right. split; [done|]. exists "libs".
    repeat split; try done. repeat constructor. }
  destruct (data !! "packages") as [packages|] eqn:Hpackages; cycle 1.
  { exists []. rewrite app_nil_r. unfold getitem, bind.
    rewrite Hlibs, Hpackages. simpl.
    split; [done|]. right. split; [done|]. exists "packages".
    repeat split; try done. repeat constructor. }
  destruct (data !! "excludes") as [excludes|] eqn:Hexcludes; cycle 1.
  { exists []. rewrite app_nil_r. unfold getitem, bind.
    rewrite Hlibs, Hpackages, Hexcludes. simpl.
    split; [done|]. right. split; [done|]. exists "excludes".
    repeat split; try done. repeat constructor. }
  assert (stops
    ((if negb (skip_apt a) then run_command (apt_argv packages) false
      else ret tt) ;;
     logger_info "Copying .so files to appimage..." ;;
     let* walked := os_query (os_walk "squashfs-root")
                             (Call_walk "squashfs-root") in
     let* paths' := for_ libs ∅
                      (copy_lib (concat ((λ t, snd t) <$> walked)) excludes) in
     write_run_script paths' ;;
     download_file a appimagetool_url "appimagetool.appimage" ;;
     run_command (appimagetool_argv a) false)) as Hrest.
  { unfold logger_info. stop_steps. }
  destruct (Hrest s) as (evs & Hc & Hd).
  exists evs. unfold getitem, bind at 1 2 3.
  rewrite Hlibs, Hpackages, Hexcludes. simpl. split; [exact Hc|by left].
Qed.

Lemma main_stops a :
  traced (main (W:=W) a)
    (λ r evs, fail_stop (error_of r) evs ∨ key_stop a (error_of r) evs).
Proof.
  intros s. unfold main, bind.
  destruct (stops_before_json a s) as (evs1 & Hc1 & Hd1).
  destruct (before_json a s) as [[e|[]] s1]; simpl in *.
  { exists evs1. split; [done|by left]. }
  destruct Hd1 as [[_ Hq1]|(? & ? & ? & _ & _ & _ & ?)]; [|done].
  unfold os_call.
  destruct (read_json (jsonfile a) (world s1)) as [[e|data] w]; simpl.
  { exists (evs1 ++ [Call_read_json (jsonfile a) (inl e)]).
    split; [by rewrite Hc1, app_assoc|]. left.
    right. by exists evs1, (Call_read_json (jsonfile a) (inl e)), e. }
  set (s2 := mkState w (calls s1 ++ [Call_read_json (jsonfile a) (inr data)])
               (logs s1)).
  destruct (after_json_stops a data s2) as (evs2 & Hc2 & Hd2).
  exists ((evs1 ++ [Call_read_json (jsonfile a) (inr data)]) ++ evs2).
  split; [by rewrite Hc2; simpl; rewrite Hc1, !app_assoc|].
  destruct Hd2 as [Hd2|(-> & k & Hk & Hnone & Hr)].
  - left. apply fail_stop_app; [|done].
    apply Forall_app. split; [done|]. by constructor.
  - right. exists evs1, data, k. rewrite app_nil_r.
    repeat split; try done. by rewrite Hr.
Qed.

(** X6. The run stops at the first call that goes wrong: a call that
    raised (other than [shutil.rmtree] raising [FileNotFoundError]) or a
    subprocess that returned a non-zero exit code is the last call of the
    run, and the run ends in the exception of that call. *)
Theorem main_stops_at_first_failure a (s : state W) pre c post e :
  emitted (main a) s = pre ++ c :: post →
  raised_by c = Some e →
  post = [] ∧ fst (main a s) = inl e.
Proof.
  intros Hev Hc.
  destruct (traced_emitted (main a) _ s (main_stops a)) as [_ Hd].
  rewrite Hev in Hd.
  assert (∀ evs, Forall (λ c, raised_by c = None) evs → c ∈ evs → False)
    as Hclean.
  { intros evs Hq Hin. rewrite Forall_forall in Hq.
    apply Hq in Hin. congruence. }
  destruct Hd as [[[_ Hq]|(pre' & c' & e' & Hsplit & Hpre & Hc' & He)]
                 |(pre' & data & k & Hsplit & Hpre & _)].
  - exfalso. apply (Hclean _ Hq). set_solver.
  - destruct post as [|x post _] using rev_ind.
    + apply (app_inj_tail pre pre') in Hsplit as [_ <-].
      split; [done|]. destruct (fst (main a s)); simpl in He; congruence.
    + exfalso. rewrite app_comm_cons, app_assoc in Hsplit.
      apply app_inj_tail in Hsplit as [<- _].
      apply (Hclean _ Hpre). set_solver.
  - exfalso.
    apply (Hclean (pre' ++ [Call_read_json (jsonfile a) (inr data)])).
    + apply Forall_app. split; [done|]. by constructor.
    + rewrite <- Hsplit. set_solver.
Qed.

(** X7. Why a run ends the way it does.  A run that completes made no
    call that went wrong.  A run that raises either raises the exception
    of its last call, or has read the document as its last call and
    raises [KeyError] for one of the keys 'libs', 'packages' and
    'excludes' that the document lacks. *)
Theorem main_outcome_explained a (s : state W) :
  match fst (main a s) with
  | inr _ => Forall (λ c, raised_by c = None) (emitted (main a) s)
  | inl e =>
      (∃ pre c, emitted (main a) s = pre ++ [c] ∧ raised_by c = Some e) ∨
      (∃ pre data k,
         emitted (main a) s
         = pre ++ [Call_read_json (jsonfile a) (inr data)] ∧
         k ∈ keys_read ∧ data !! k = None ∧ e = KeyError k)
  end.
Proof.
  destruct (traced_emitted (main a) _ s (main_stops a)) as [_ Hd].
  destruct (fst (main a s)) as [e|[]]; simpl in Hd.
  - destruct Hd as [[[? _]|(pre & c & e' & Hsplit & _ & Hc & [= <-])]
                   |(pre & data & k & Hsplit & _ & Hk & Hnone & [= ->])].
    + done.
    + left. by exists pre, c.
    + right. by exists pre, data, k.
  - destruct Hd as [[[_ Hq]|(? & ? & ? & _ & _ & _ & ?)]
                   |(? & ? & ? & _ & _ & _ & _ & ?)]; done.
Qed.

(** *** What the script touches *)

Lemma only_calls_ret {A} P (a : A) : only_calls P (ret a : M (state W) A).
Proof. intros s. exists []. by rewrite app_nil_r. Qed.

Lemma only_calls_raise {A} P e : only_calls P (raise e : M (state W) A).
Proof. intros s. exists []. by rewrite app_nil_r. Qed.

Lemma only_calls_log P lvl msg : only_calls P (log (W:=W) lvl msg).
Proof. intros s. exists []. by rewrite app_nil_r. Qed.

Lemma only_calls_os_query {A} P (q : W → A) ev :
  (∀ a, P (ev a)) → only_calls P (os_query q ev).
Proof. intros Hev s. exists [ev (q (world s))]. split; [done|]. by constructor. Qed.

Lemma only_calls_os_call {A} P (op : W → result A * W) ev :
  (∀ r, P (ev r)) → only_calls P (os_call op ev).
Proof.
  intros Hev s. unfold os_call. destruct (op (world s)) as [r w].
  exists [ev r]. split; [done|]. by constructor.
Qed.

Lemma only_calls_bind {A B} P (m : M (state W) A) (k : A → M (state W) B) :
  only_calls P m → (∀ a, only_calls P (k a)) → only_calls P (bind m k).
Proof.
  intros Hm Hk s. unfold bind.
  destruct (Hm s) as (evs1 & Hc1 & Hd1).
  destruct (m s) as [[e|a] s1]; simpl in *; [by exists evs1|].
  destruct (Hk a s1) as (evs2 & Hc2 & Hd2).
  exists (evs1 ++ evs2). split; [by rewrite Hc2, Hc1, app_assoc|].
  by apply Forall_app.
Qed.

Lemma only_calls_try {A} P (m : M (state W) A) :
  only_calls P m → only_calls P (try_ m).
Proof.
  intros Hm s. unfold try_. destruct (Hm s) as (evs & Hc & Hd).
  destruct (m s) as [r s1]. by exists evs.
Qed.

Lemma only_calls_for {A B} P (body : A → B → M (state W) A) l acc :
  (∀ acc x, only_calls P (body acc x)) → only_calls P (for_ l acc body).
Proof.
  intros Hbody. revert acc. induction l as [|x l IH]; intros acc; simpl.
  - apply only_calls_ret.
  - apply only_calls_bind; [apply Hbody|]. intros acc'. apply IH.
Qed.

Lemma only_calls_run_command P argv cap :
  (∀ r, P (Call_run argv cap r)) → only_calls P (run_command argv cap).
Proof.
  intros Hev. unfold run_command, logger_info, assert_.
  apply only_calls_bind; [apply only_calls_log|]. intros _.
  apply only_calls_bind; [by apply only_calls_os_call|]. intros rc.
  destruct (rc =? 0); [apply only_calls_ret|apply only_calls_raise].
Qed.

Lemma only_calls_getitem P data key : only_calls P (getitem (W:=W) data key).
Proof.
  unfold getitem. destruct (data !! key);
    [apply only_calls_ret|apply only_calls_raise].
Qed.

Ltac confine :=
  repeat first
    [ apply only_calls_ret | apply only_calls_raise | apply only_calls_log
    | apply only_calls_getitem
    | apply only_calls_run_command; intros ?; simpl; try (by auto 6)
    | apply only_calls_os_query; intros ?; simpl;
        first [done | by eexists]
    | apply only_calls_os_call; intros ?; simpl;
        first [done | by auto | by eexists
              | split; [done|repeat constructor] ]
    | apply only_calls_for; intros ??
    | apply only_calls_try
    | match goal with
      | |- only_calls _ (match ?r with inl _ => _ | inr _ => _ end) =>
          destruct r
      | |- only_calls _ (if ?b then _ else _) => destruct b eqn:?
      end
    | apply only_calls_bind; [|intros ?] ].

(** X8. Whatever happens during a run, the script downloads only the two
    AppImages, under their fixed names, makes only these two and the
    launcher executable, deletes only [squashfs-root] and
    [squashfs-root/AppRun], writes only [squashfs-root/AppRun], copies
    every file to its own path prefixed with [squashfs-root], and runs
    only the unpacking, pip, apt and packaging commands, apt only when
    [--skip-apt] is not given. *)
Theorem main_confined a (s : state W) :
  Forall (confined a) (emitted (main a) s).
Proof.
  assert (only_calls (confined a) (main (W:=W) a)) as Hmain.
  { unfold main, before_json, after_json, download_file, copy_lib,
      write_run_script, logger_info, logger_debug.
    confine.
    right. right. right. rewrite negb_true_iff in *. eauto. }
  by destruct (traced_emitted (main a) _ s Hmain) as [_ Hd].
Qed.

(** *** [download_file] and the handler around [shutil.rmtree] *)


(** X10. Of the exceptions [shutil.rmtree] can raise, the script catches
    [FileNotFoundError]: the run then goes on with the unpacking as if
    the directory had been removed.  Any other exception ends the run at
    once, before the image is unpacked. *)
Theorem rmtree_handler a (s s1 : state W) e w :
  download_file a python_url "python.appimage" s = (inr tt, s1) →
  shutil_rmtree "squashfs-root" (world s1) = (inl e, w) →
  let s2 :=
    mkState w (calls s1 ++ [Call_rmtree "squashfs-root" (inl e)]) (logs s1) in
  (is_FileNotFoundError e = true →
   before_json a s =
     (run_command extract_argv true ;;
      run_command pip_argv false ;;
      logger_info ("Reading from: " +:+ jsonfile a)) s2) ∧
  (is_FileNotFoundError e = false →
   main a s = (inl e, s2)).
Proof.
  intros Hdl Hrm s2.
  assert (∀ A (k : unit → M (state W) A),
            bind (before_json a) k s
            = (if is_FileNotFoundError e
               then bind (run_command extract_argv true ;;
                          run_command pip_argv false ;;
                          logger_info ("Reading from: " +:+ jsonfile a)) k s2
               else (inl e, s2))) as Hrun.
  { intros A k. unfold before_json.
    unfold bind at 1 2. rewrite Hdl. unfold bind at 1, try_, os_call.
    rewrite Hrm. fold s2. unfold bind at 1.
    destruct (is_FileNotFoundError e); [|done]. simpl.
    unfold bind. destruct (run_command extract_argv true s2) as [[?|?] ?];
      [done|].
    by destruct (run_command pip_argv false _) as [[?|?] ?]. }
  split; intros Hfnf.
  - specialize (Hrun unit ret). rewrite Hfnf in Hrun.
    assert (∀ (m : M (state W) unit) s0, bind m ret s0 = m s0) as Hret.
    { intros m s0. unfold bind, ret. by destruct (m s0) as [[?|[]] ?]. }
    by rewrite !Hret in Hrun.
  - unfold main. rewrite Hrun. by rewrite Hfnf.
Qed.

(** *** The directories of the libraries *)

(** X11. When the loop over the libraries completes, the set of paths has
    grown by exactly the directories of the entries that were not
    skipped, and the loop has copied one file for each of these entries. *)
Theorem copy_libs_paths ef ex libs paths (s : state W) paths1 s1 :
  for_ libs paths (copy_lib ef ex) s = (inr paths1, s1) →
  paths1 = paths ∪ list_to_set
             (os_path_dirname <$> filter (λ l, skipped ef ex l = false) libs) ∧
  length (filter (λ c, is_copyfile c = true)
            (drop (length (calls s)) (calls s1)))
  = length (filter (λ l, skipped ef ex l = false) libs).
Proof. apply copy_libs_grow. Qed.

(** X12. On a run that completes from the point where the document has
    been parsed, the launcher that is written lists, after [/usr/lib],
    the directories of the libraries that were not skipped, each one
    once, where skipping is decided with the files [os.walk] found. *)
Theorem launcher_lists_copied_dirs a (data : json_doc) libs excludes
    (s s' : state W) :
  data !! "libs" = Some libs →
  data !! "excludes" = Some excludes →
  after_json a data s = (inr tt, s') →
  ∃ walked dirs,
    Call_walk "squashfs-root" walked ∈ emitted (after_json a data) s ∧
    NoDup dirs ∧
    (∀ d, d ∈ dirs ↔
          ∃ lib, lib ∈ libs ∧ d = os_path_dirname lib ∧
                 skipped (concat ((λ t, snd t) <$> walked)) excludes lib
                 = false) ∧
    Call_write "squashfs-root/AppRun" (AppRun_text dirs) (inr tt)
      ∈ emitted (after_json a data) s.
Proof.
  intros Hlibs Hexcludes Hrun.
  unfold emitted. rewrite Hrun. simpl.
  unfold after_json in Hrun.
  apply bind_inr in Hrun as (libs' & s3 & Hl & Hrun).
  apply bind_inr in Hrun as (packages & s4 & Hp & Hrun).
  apply bind_inr in Hrun as (excludes' & s5 & He & Hrun).
  unfold getitem in Hl, Hp, He. rewrite Hlibs in Hl. rewrite Hexcludes in He.
  destruct (data !! "packages"); [|done].
  injection Hl as <- <-. injection Hp as <- <-. injection He as <- <-.
  apply bind_inr in Hrun as ([] & s6 & Hapt & Hrun).
  apply bind_inr in Hrun as ([] & s7 & Hlog & Hrun).
  unfold logger_info, log, modify in Hlog. injection Hlog as <-.
  apply bind_inr in Hrun as (walked & s8 & Hwalk & Hrun).
  unfold os_query in Hwalk. simpl in Hwalk. injection Hwalk as <- <-.
  apply bind_inr in Hrun as (paths & s9 & Hloop & Hrun).
  pose proof (copy_libs_inr _ _ _ _ _ _ _ Hloop) as (copies & Hc9 & _).
  apply copy_libs_grow in Hloop as [-> _].
  apply bind_inr in Hrun as ([] & s10 & Hc10%write_run_script_text & Hrun).
  apply bind_inr in Hrun
    as ([] & s11 & (found2 & Hc11)%download_file_inr & Hc12%run_command_inr).
  assert (∃ apt, calls s6 = calls s ++ apt) as [apt Hc6].
  { destruct (negb (skip_apt a)).
    - apply run_command_inr in Hapt. eauto.
    - injection Hapt as <-. exists []. by rewrite app_nil_r. }
  rewrite Hc12, Hc11, Hc10, Hc9. simpl. rewrite Hc6.
  rewrite <- !app_assoc, drop_app_length.
  set (walked := os_walk "squashfs-root" (world s6)).
  set (dirset := (∅ ∪ list_to_set
                   (os_path_dirname <$>
                    filter (λ l, skipped (concat ((λ t, snd t) <$> walked))
                                   excludes l = false) libs) : gset string)).
  exists walked, (list_of_set dirset).
  split; [rewrite !elem_of_app, !elem_of_cons; naive_solver|].
  split; [|split].
  - rewrite list_of_set_perm. apply NoDup_elements.
  - intros d. rewrite list_of_set_perm, elem_of_elements. unfold dirset.
    rewrite elem_of_union, elem_of_list_to_set, list_elem_of_fmap.
    split.
    + intros [[]%elem_of_empty|(lib & -> & [Hskip Hin]%list_elem_of_filter)].
      by exists lib.
    + intros (lib & Hin & -> & Hskip). right. exists lib. split; [done|].
      by apply list_elem_of_filter.
  - rewrite !elem_of_app, !elem_of_cons. naive_solver.
Qed.

(** *** The name of the output file *)

Lemma substring_all t : String.substring 0 (String.length t) t = t.
Proof. induction t as [|c t IH]; simpl; [done|]. by rewrite IH. Qed.

Lemma removeprefix_app pre t : removeprefix (pre +:+ t) pre = t.
Proof.
  unfold removeprefix.
  assert (String.prefix pre (pre +:+ t) = true) as ->.
  { induction pre as [|c pre IH]; simpl; [by destruct t|].
    destruct (Ascii.ascii_dec c c); [exact IH|congruence]. }
  induction pre as [|c pre IH]; simpl.
  - rewrite Nat.sub_0_r. apply substring_all.
  - exact IH.
Qed.

(** X13. The output file is named after the version without one leading
    [v]: a version [v] followed by [t] gives [BeeRef-t.appimage], and a
    version that does not start with [v] is used as it is. *)
Theorem appimagetool_output_name a :
  (∀ t, version a = "v" +:+ t →
        appimagetool_argv a =
          ["./appimagetool.appimage"; "squashfs-root";
           "BeeRef-" +:+ t +:+ ".appimage"; "--no-appstream"]) ∧
  (String.prefix "v" (version a) = false →
   appimagetool_argv a =
     ["./appimagetool.appimage"; "squashfs-root";
      "BeeRef-" +:+ version a +:+ ".appimage"; "--no-appstream"]).
Proof.
  unfold appimagetool_argv. split.
  - intros t ->. by rewrite removeprefix_app.
  - intros Hv. unfold removeprefix. by rewrite Hv.
Qed.

End build_more.


Lemma main_stops_at_first_failure_witness :
  build_appimage.emitted (build_appimage.main example_args)
    (start (offline (example_world example_disk example_doc ∅)))
  = [build_appimage.Call_exists "python.appimage" false] ++
    build_appimage.Call_urlretrieve build_appimage.python_url
      "python.appimage"
      (inl (URLError "[Errno -3] Temporary failure in name resolution"))
    :: [] ∧
  fst (build_appimage.main example_args
         (start (offline (example_world example_disk example_doc ∅))))
  = inl (URLError "[Errno -3] Temporary failure in name resolution").
Proof.
  assert (build_appimage.emitted (build_appimage.main example_args)
            (start (offline (example_world example_disk example_doc ∅)))
          = [build_appimage.Call_exists "python.appimage" false] ++
            build_appimage.Call_urlretrieve build_appimage.python_url
              "python.appimage"
              (inl (URLError "[Errno -3] Temporary failure in name resolution"))
            :: []) as Hcalls by (vm_compute; reflexivity).
  split; [exact Hcalls|].
  apply (main_stops_at_first_failure _ _ _ _ _ _ Hcalls). reflexivity.
Defined.


Lemma rmtree_handler_witness :
  fst (build_appimage.before_json example_args
         (start (example_world example_disk example_doc ∅)))
  = inr tt.
Proof.
  pose proof (rmtree_handler example_args
                (start (example_world example_disk example_doc ∅))
                (snd (build_appimage.download_file example_args
                        build_appimage.python_url "python.appimage"
                        (start (example_world example_disk example_doc ∅))))
                (FileNotFoundError "squashfs-root")
                (build_appimage.world
                   (snd (build_appimage.download_file example_args
                           build_appimage.python_url "python.appimage"
                           (start (example_world example_disk
                                     example_doc ∅)))))) as Hcaught.
  destruct Hcaught as [-> _];
    [vm_compute; reflexivity|vm_compute; reflexivity|reflexivity|].
  vm_compute. reflexivity.
Defined.

Lemma copy_libs_paths_witness :
  fst (for_ ["/usr/lib/x86_64-linux-gnu/libxcb.so.1";
             "/usr/lib/x86_64-linux-gnu/libz.so.1";
             "/usr/lib/x86_64-linux-gnu/libc.so.6";
             "/opt/gl/libGL.so.1"] ∅
         (build_appimage.copy_lib ["pip"; "libz.so.1"; "AppRun"] ["libc.so.6"])
         (start (example_world (<["/opt/gl/libGL.so" := "GL"]> example_disk)
                   example_doc ∅)))
  = inr ({["/usr/lib/x86_64-linux-gnu"; "/opt/gl"]} : gset string).
Proof.
  destruct (for_ _ _ _ _) as [r s1] eqn:Hrun.
  assert (is_ok r = true) as Hok.
  { change r with (fst (r, s1)). rewrite <- Hrun. vm_compute. reflexivity. }
  destruct r as [e|paths1]; [discriminate|].
  destruct (copy_libs_paths _ _ _ _ _ _ _ Hrun) as [-> _].
  vm_compute. reflexivity.
Defined.

Lemma launcher_lists_copied_dirs_witness :
  ∃ content,
    build_appimage.Call_write "squashfs-root/AppRun" content (inr tt)
    ∈ build_appimage.emitted
        (build_appimage.after_json example_args example_doc)
        (snd (build_appimage.before_json example_args
                (start (example_world example_disk example_doc ∅)))).
Proof.
  pose proof (launcher_lists_copied_dirs example_args example_doc
                ["/usr/lib/x86_64-linux-gnu/libxcb.so.1";
                 "/usr/lib/x86_64-linux-gnu/libz.so.1";
                 "/usr/lib/x86_64-linux-gnu/libc.so.6";
                 "/usr/lib/x86_64-linux-gnu/libGL.so.1"]
                ["libc.so.6"]
                (snd (build_appimage.before_json example_args
                        (start (example_world example_disk example_doc ∅))))
                (snd (build_appimage.after_json example_args example_doc
                        (snd (build_appimage.before_json example_args
                                (start (example_world example_disk
                                          example_doc ∅))))))) as Hlists.
  destruct Hlists as (walked & dirs & _ & _ & _ & Hwrite);
    [vm_compute; reflexivity ..|].
  by exists (AppRun_text dirs).
Defined.

Lemma appimagetool_output_name_witness :
  build_appimage.appimagetool_argv example_args
  = ["./appimagetool.appimage"; "squashfs-root"; "BeeRef-0.3.3.appimage";
     "--no-appstream"].
Proof.
  apply (proj1 (appimagetool_output_name example_args) "0.3.3"). reflexivity.
Defined.
